(** * zai-glm-cli: MCP transports, MCP configuration, web search, batch
    editor and backup manager, embedded from the TypeScript/JavaScript
    sources and checked against the written specification.

    Part I holds the embedding, one module for each source file; Part II
    holds the properties, one module for each module of Part I.

    Conventions of the embedding.
    - A JavaScript call that may throw returns a [completion]: either
      [Normal v] or [Throw e] with the thrown [Error]. An [async] function
      is modelled by the completion its promise settles with (resolve is
      [Normal], reject is [Throw]).
    - [process.env], header objects and the file system are finite maps
      (stdpp's [gmap]) keyed by strings.
    - A JavaScript object whose property order is observable through
      [Object.values] is an association list.
    - Optional properties are [option]; [undefined] is [None].
    - What lies outside the repository (the network, the file system, the
      crypto hash, the regular-expression engine, the confirmation dialog)
      is an interface, a class of operations: every theorem holds for every
      instance, and the concrete runs pick one. *)

From Stdlib Require Import Ascii QArith Lqa.
From stdpp Require Import base gmap strings list fin_maps pretty.

(** * Part I: the embedding *)

(** ** JavaScript basics *)

Module Js.

(** A thrown [Error] object: its [name] ("Error", "TypeError", ...) and its
    [message]. *)
Record Error := mkError { name : string; message : string }.

(** [new Error(message)] *)
Definition new_Error (message : string) : Error := mkError "Error" message.

(** [new TypeError(message)], what the runtime throws on a property access
    through [undefined] or [null]. *)
Definition new_TypeError (message : string) : Error := mkError "TypeError" message.

(** [Error.prototype.toString], used when an error is interpolated. *)
Definition Error_toString (e : Error) : string :=
  if String.eqb (name e) EmptyString then message e
  else if String.eqb (message e) EmptyString then name e
  else name e +:+ ": " +:+ message e.

Inductive completion (A : Type) : Type :=
| Normal (a : A)
| Throw (e : Error).
Arguments Normal {A} a.
Arguments Throw {A} e.

#[global] Instance completion_ret : MRet completion := λ A a, Normal a.

#[global] Instance completion_bind : MBind completion := λ A B k c,
  match c with
  | Normal a => k a
  | Throw e => Throw e
  end.

(** [try { body } catch (error) { handler }] *)
Definition try_catch {A} (body : completion A) (handler : Error → completion A)
  : completion A :=
  match body with
  | Normal a => Normal a
  | Throw e => handler e
  end.

(** Truthiness of an optional string property: [undefined] and the empty
    string are falsy, every other string is truthy. *)
Definition truthy (v : option string) : bool :=
  match v with
  | Some s => negb (String.eqb s EmptyString)
  | None => false
  end.

(** A template literal prints [undefined] for a missing value. *)
Definition template (v : option string) : string := default "undefined" v.

(** [a || d] where [d] is a string. *)
Definition or_default (a : option string) (d : string) : string :=
  if truthy a then default d a else d.

(** [a || b] on optional strings. *)
Definition or_else (a b : option string) : option string :=
  if truthy a then a else b.

(** Object spread: in [{...a, ...b}] the properties of [b] override those of
    [a]; spreading [undefined] adds nothing. *)
Definition spread (a : gmap string string) (b : option (gmap string string))
  : gmap string string :=
  default ∅ b ∪ a.

(** *** Numbers

    A JavaScript number is a double: not-a-number, the two infinities, or a
    finite value, which is a rational. Comparison, [Math.max] and
    [Math.min] are exact on doubles, so they are modelled on the rationals;
    arithmetic, which rounds, is not modelled on this type. *)

Inductive number :=
| NaN
| NegInfinity
| Finite (q : Q)
| Infinity.

(** [a < b]; every comparison with [NaN] is false. *)
Definition number_lt (a b : number) : bool :=
  match a, b with
  | NaN, _ | _, NaN => false
  | _, NegInfinity => false
  | NegInfinity, _ => true
  | Infinity, _ => false
  | Finite _, Infinity => true
  | Finite p, Finite q => negb (Qle_bool q p)
  end.

(** [a <= b] *)
Definition number_le (a b : number) : bool :=
  match a, b with
  | NaN, _ | _, NaN => false
  | NegInfinity, _ => true
  | _, NegInfinity => false
  | _, Infinity => true
  | Infinity, _ => false
  | Finite p, Finite q => Qle_bool p q
  end.

Definition Math_max (a b : number) : number :=
  match a, b with
  | NaN, _ | _, NaN => NaN
  | _, _ => if number_lt a b then b else a
  end.

Definition Math_min (a b : number) : number :=
  match a, b with
  | NaN, _ | _, NaN => NaN
  | _, _ => if number_lt b a then b else a
  end.

(** *** Strings

    A string is its sequence of code units; [length], [substring] and
    [slice] count code units. *)

Definition nl : string := String "010"%char EmptyString.
Definition dquote : string := String "034"%char EmptyString.

(** [s.split(sep)] for a one-character separator: never empty, one more
    piece than there are separators. *)
Fixpoint split (sep : ascii) (s : string) : list string :=
  match s with
  | EmptyString => [EmptyString]
  | String c rest =>
      if Ascii.eqb c sep then EmptyString :: split sep rest
      else match split sep rest with
           | piece :: pieces => String c piece :: pieces
           | [] => [String c EmptyString]
           end
  end.

(** [pieces.join(sep)] *)
Definition join (sep : string) (pieces : list string) : string :=
  String.concat sep pieces.

(** The white space and the line terminators that [trim] strips, among
    the code units the strings of this development hold (those below 256):
    tab, line feed, vertical tab, form feed, carriage return, space and
    no-break space. *)
Definition is_white_space (c : ascii) : bool :=
  let n := nat_of_ascii c in
  ((9 <=? n) && (n <=? 13)) || (n =? 32) || (n =? 160).

Fixpoint trimStart (s : string) : string :=
  match s with
  | EmptyString => EmptyString
  | String c rest => if is_white_space c then trimStart rest else s
  end.

Definition trim (s : string) : string :=
  String.rev (trimStart (String.rev (trimStart s))).

(** An index argument of [slice] or [splice] on a sequence of [len]
    elements: a negative index counts from the end, and the result is
    clamped to [0..len]. *)
Definition relative_index (k : Z) (len : nat) : nat :=
  if (k <? 0)%Z then Z.to_nat (Z.max (Z.of_nat len + k) 0)
  else Z.to_nat (Z.min k (Z.of_nat len)).

(** [s.slice(from, to)] and [s.slice(from)] *)
Definition slice (s : string) (from to : Z) : string :=
  let i := relative_index from (String.length s) in
  let j := relative_index to (String.length s) in
  String.substring i (j - i) s.

Definition slice_from (s : string) (from : Z) : string :=
  let i := relative_index from (String.length s) in
  String.substring i (String.length s - i) s.

(** [l.splice(start, deleteCount)]: the array that is left. *)
Definition splice {A} (l : list A) (start deleteCount : Z) : list A :=
  let i := relative_index start (length l) in
  let n := Z.to_nat (Z.min (Z.max deleteCount 0) (Z.of_nat (length l - i))) in
  take i l ++ drop (i + n) l.

End Js.

Import Js.

(** ** src/types: the result every tool returns *)

Module Types.

Record ToolResult (D : Type) := mkToolResult {
  success : bool;
  output : option string;
  error : option string;
  data : option D;
}.
Arguments mkToolResult {D}.
Arguments success {D}.
Arguments output {D}.
Arguments error {D}.
Arguments data {D}.



End Types.

Import Types.

(** ** An in-memory file system

    The file-system calls of the sources, on a finite map from paths to
    files and directories; the embedded code is run on it at concrete
    inputs. *)

Module MemFs.

Inductive node :=
| File (content : string)
| Directory.

Definition existsSync (fs : gmap string node) (path : string) : bool :=
  bool_decide (is_Some (fs !! path)).

Definition readFile (fs : gmap string node) (path : string) : completion string :=
  match fs !! path with
  | Some (File content) => Normal content
  | Some Directory =>
      Throw (new_Error "EISDIR: illegal operation on a directory, read")
  | None =>
      Throw (new_Error ("ENOENT: no such file or directory, open '" +:+ path +:+ "'"))
  end.

Definition writeFile (fs : gmap string node) (path content : string)
  : gmap string node * completion unit :=
  match fs !! path with
  | Some Directory =>
      (fs, Throw (new_Error ("EISDIR: illegal operation on a directory, open '"
                             +:+ path +:+ "'")))
  | _ => (<[ path := File content ]> fs, Normal tt)
  end.

End MemFs.

(** ** src/dist/mcp/transports.js *)

Module Transports.

Record TransportConfig := mkTransportConfig {
  type : option string;
  command : option string;
  args : option (list string);
  env : option (gmap string string);
  url : option string;
  headers : option (gmap string string);
}.

(** The parameters handed to the SDK's [StdioClientTransport]. *)
Record StdioClientTransport := mkStdioClientTransport {
  sdk_command : option string;
  sdk_args : list string;
  sdk_env : gmap string string;
}.

Record StdioTransport := mkStdioTransport {
  stdio_config : TransportConfig;
  stdio_transport : option StdioClientTransport;
  stdio_process : option unit;
}.

(** The instance [axios.create] returns. *)
Record AxiosInstance := mkAxiosInstance {
  baseURL : option string;
  axios_headers : gmap string string;
}.

Record HttpTransport := mkHttpTransport {
  http_config : TransportConfig;
  http_client : option AxiosInstance;
  http_connected : bool;
}.

Record HttpClientTransport := mkHttpClientTransport {
  hct_client : AxiosInstance;
}.

Record StreamableHttpTransport := mkStreamableHttpTransport {
  sh_config : TransportConfig;
  sh_connected : bool;
}.

Record StreamableHttpClientTransport := mkStreamableHttpClientTransport {
  shc_url : option string;
  shc_headers : option (gmap string string);
}.

(** What the transports use of the SDK, the runtime and the network: the
    JSON-RPC message type with its serialisation, the parsed-URL type with
    the [URL] constructor, and the HTTP client. [World] is the state of
    everything outside the process. *)
Class Externals := {
  Message : Type;
  JSON_stringify : Message → string;
  URL : Type;
  URL_new : string → completion URL;
  World : Type;
  axios_get : World → AxiosInstance → string → World * completion Message;
  axios_post : World → AxiosInstance → string → Message → World * completion Message;
}.

Section WithExternals.

Context {E : Externals}.

(** The SDK's [SSEClientTransport], built from a parsed URL. *)
Record MCPSSEClientTransport := mkMCPSSEClientTransport {
  sdk_url : URL;
}.

Record SSETransport := mkSSETransport {
  sse_config : TransportConfig;
  sse_connected : bool;
  sse_transport : option MCPSSEClientTransport;
}.

(** *** class StdioTransport *)

Definition StdioTransport_new (config : TransportConfig) : completion StdioTransport :=
  if truthy (command config)
  then Normal (mkStdioTransport config None None)
  else Throw (new_Error "Command is required for stdio transport").

(** The environment object literal of [connect]: later properties override
    earlier ones. *)
Definition StdioTransport_connect_env
  (process_env : gmap string string) (config : TransportConfig)
  : gmap string string :=
  <["NODE_ENV" := "production"]>
    (<["DEBUG" := EmptyString]>
      (<["MCP_REMOTE_SILENT" := "1"]>
        (<["MCP_REMOTE_QUIET" := "1"]>
          (spread process_env (env config))))).

Definition StdioTransport_connect
  (process_env : gmap string string) (this : StdioTransport)
  : StdioTransport * completion StdioClientTransport :=
  let env := StdioTransport_connect_env process_env (stdio_config this) in
  let transport :=
    mkStdioClientTransport
      (command (stdio_config this))
      (default [] (args (stdio_config this)))
      env in
  (mkStdioTransport (stdio_config this) (Some transport) (stdio_process this),
   Normal transport).

Definition StdioTransport_disconnect (this : StdioTransport) : StdioTransport :=
  mkStdioTransport (stdio_config this) None None.

(** *** class HttpTransport *)

Definition HttpTransport_new (config : TransportConfig) : completion HttpTransport :=
  if truthy (url config)
  then Normal (mkHttpTransport config None false)
  else Throw (new_Error "URL is required for HTTP transport").

Definition HttpTransport_connect (w : World) (this : HttpTransport)
  : World * HttpTransport * completion HttpClientTransport :=
  let client :=
    mkAxiosInstance
      (url (http_config this))
      (spread {[ "Content-Type" := "application/json" ]} (headers (http_config this))) in
  (* try { await this.client.get('/health'); this.connected = true }
     catch (error) { this.connected = true } *)
  let '(w', health) := axios_get w client "/health" in
  let connected :=
    match health with
    | Normal _ => true
    | Throw _ => true
    end in
  (w', mkHttpTransport (http_config this) (Some client) connected,
   Normal (mkHttpClientTransport client)).

Definition HttpTransport_disconnect (this : HttpTransport) : HttpTransport :=
  mkHttpTransport (http_config this) None false.

(** *** class HttpClientTransport *)

Definition HttpClientTransport_send
  (w : World) (this : HttpClientTransport) (message : Message)
  : World * completion Message :=
  let '(w', response) := axios_post w (hct_client this) "/rpc" message in
  (w', try_catch response
         (λ error,
            Throw (new_Error ("HTTP transport error: " +:+ Error_toString error)))).

(** *** class SSETransport *)

Definition SSETransport_new (config : TransportConfig) : completion SSETransport :=
  if truthy (url config)
  then Normal (mkSSETransport config false None)
  else Throw (new_Error "URL is required for SSE transport").

Definition SSETransport_connect (this : SSETransport)
  : SSETransport * completion MCPSSEClientTransport :=
  match URL_new (template (url (sse_config this))) with
  | Normal url =>
      let transport := mkMCPSSEClientTransport url in
      (mkSSETransport (sse_config this) true (Some transport), Normal transport)
  | Throw error => (this, Throw error)
  end.

Definition SSETransport_disconnect (this : SSETransport) : SSETransport :=
  mkSSETransport (sse_config this) false None.

(** *** class StreamableHttpTransport *)

Definition StreamableHttpTransport_new (config : TransportConfig)
  : completion StreamableHttpTransport :=
  if truthy (url config)
  then Normal (mkStreamableHttpTransport config false)
  else Throw (new_Error "URL is required for streamable_http transport").

Definition StreamableHttpTransport_connect (this : StreamableHttpTransport)
  : StreamableHttpTransport * completion StreamableHttpClientTransport :=
  (mkStreamableHttpTransport (sh_config this) true,
   Normal (mkStreamableHttpClientTransport
             (url (sh_config this)) (headers (sh_config this)))).

Definition StreamableHttpTransport_disconnect (this : StreamableHttpTransport)
  : StreamableHttpTransport :=
  mkStreamableHttpTransport (sh_config this) false.

(** *** class StreamableHttpClientTransport *)

Definition incompatibility_message : string :=
  "StreamableHttpTransport: SSE endpoints are not compatible with MCP request-response pattern. GitHub Copilot MCP may require a different integration approach.".

(** [send] writes two lines to the console and then throws; the result pairs
    the lines written with the completion. *)
Definition StreamableHttpClientTransport_send
  (this : StreamableHttpClientTransport) (message : Message)
  : list string * completion Message :=
  ([ "StreamableHttpTransport: SSE endpoints require persistent connections, not suitable for MCP request-response pattern";
     "StreamableHttpTransport: Message that would be sent: " +:+ JSON_stringify message ],
   Throw (new_Error incompatibility_message)).

(** *** createTransport *)

Inductive MCPTransport :=
| OfStdio (t : StdioTransport)
| OfHttp (t : HttpTransport)
| OfSSE (t : SSETransport)
| OfStreamableHttp (t : StreamableHttpTransport).

Definition getType (t : MCPTransport) : string :=
  match t with
  | OfStdio _ => "stdio"
  | OfHttp _ => "http"
  | OfSSE _ => "sse"
  | OfStreamableHttp _ => "streamable_http"
  end.

Definition createTransport (config : TransportConfig) : completion MCPTransport :=
  if decide (type config = Some "stdio") then
    t ← StdioTransport_new config; Normal (OfStdio t)
  else if decide (type config = Some "http") then
    t ← HttpTransport_new config; Normal (OfHttp t)
  else if decide (type config = Some "sse") then
    t ← SSETransport_new config; Normal (OfSSE t)
  else if decide (type config = Some "streamable_http") then
    t ← StreamableHttpTransport_new config; Normal (OfStreamableHttp t)
  else
    Throw (new_Error ("Unsupported transport type: " +:+ template (type config))).

End WithExternals.

(** *** The specification's reading *)

(** The transport kinds [createTransport] recognises. *)
Definition recognized_kinds : list string :=
  ["stdio"; "http"; "sse"; "streamable_http"].

(** A configuration lacks the field its kind requires. *)
Definition missing_required_field (config : TransportConfig) : Prop :=
  (type config = Some "stdio" ∧ command config = None)
  ∨ (type config ∈ [Some "http"; Some "sse"; Some "streamable_http"]
     ∧ url config = None).

(** The environment variables [connect] fixes after the caller's. *)
Definition fixed_env : gmap string string :=
  {[ "MCP_REMOTE_QUIET" := "1"; "MCP_REMOTE_SILENT" := "1";
     "DEBUG" := EmptyString; "NODE_ENV" := "production" ]}.

(** What the specification says of the subprocess environment: every
    variable of the configuration's [env] reaches the subprocess with the
    configuration's value. *)
Definition caller_env_overrides
  (process_env : gmap string string) (this : StdioTransport) : Prop :=
  ∀ k v, default ∅ (env (stdio_config this)) !! k = Some v →
    ∃ tr, (StdioTransport_connect process_env this).2 = Normal tr
          ∧ sdk_env tr !! k = Some v.

(** *** Concrete configurations and a world without network *)

Definition offline : Externals := {|
  Message := string;
  JSON_stringify := λ message, message;
  URL := string;
  URL_new := λ url, Normal url;
  World := unit;
  axios_get := λ w _ _, (w, Throw (new_Error "connect ECONNREFUSED 127.0.0.1:8080"));
  axios_post := λ w _ _ _, (w, Throw (new_Error "connect ECONNREFUSED 127.0.0.1:8080"));
|}.

Definition config_of_kind (kind : option string) : TransportConfig :=
  mkTransportConfig kind None None None None None.

Definition config_with_env (e : gmap string string) : TransportConfig :=
  mkTransportConfig (Some "stdio") (Some "node") None (Some e) None None.

Definition config_with_url (u : string) : TransportConfig :=
  mkTransportConfig (Some "http") None None None (Some u) None.

End Transports.

(** ** src/src/mcp/config.ts *)

Module McpConfig.

Import Transports.

Record MCPServerConfig := mkMCPServerConfig {
  name : string;
  transport : TransportConfig;
}.

Record MCPConfig := mkMCPConfig {
  servers : list MCPServerConfig;
}.

(** What [loadProjectSettings] returns, read from .zai/settings.json. The
    [mcpServers] object is listed in property order, the order
    [Object.values] follows: the keys that are array indices come first, in
    ascending order, then the other keys in the order of their insertion. It
    need not be the order of the file. The keys are pairwise distinct, the
    values are whatever the file holds. *)
Record ProjectSettings := mkProjectSettings {
  model : option string;
  mcpServers : option (list (string * MCPServerConfig));
}.

Definition Object_values {V} (o : list (string * V)) : list V := o.*2.

Definition sse_server (server_name url : string) : MCPServerConfig :=
  mkMCPServerConfig server_name
    (mkTransportConfig (Some "sse") None None None (Some url) None).

Definition getZaiBuiltInServers (process_env : gmap string string)
  : list MCPServerConfig :=
  let apiKey := process_env !! "ZAI_API_KEY" in
  if negb (truthy apiKey) then []
  else
    [ sse_server "zai-zread"
        ("https://api.z.ai/api/mcp/zread/sse?Authorization=" +:+ template apiKey);
      sse_server "zai-web-search"
        ("https://api.z.ai/api/mcp/web_search/sse?Authorization=" +:+ template apiKey) ].

Definition loadMCPConfig
  (projectSettings : ProjectSettings) (process_env : gmap string string)
  : MCPConfig :=
  let userServers :=
    match mcpServers projectSettings with
    | Some o => Object_values o
    | None => []
    end in
  let zaiServers := getZaiBuiltInServers process_env in
  let userServerNames : gset string := list_to_set (name <$> userServers) in
  let filteredZaiServers := filter (λ s, name s ∉ userServerNames) zaiServers in
  mkMCPConfig (userServers ++ filteredZaiServers).

Definition getZaiBuiltInServerNames : list string :=
  ["zai-zread"; "zai-web-search"].

Definition isZaiMCPAvailable (process_env : gmap string string) : bool :=
  truthy (process_env !! "ZAI_API_KEY").

(** *** The specification's reading *)

(** The servers the user configured: the values of [mcpServers], as
    [Object.values] lists them. *)
Definition userServers (projectSettings : ProjectSettings) : list MCPServerConfig :=
  default [] (Object_values <$> mcpServers projectSettings).

(** The names of the built-in servers that are due: those no user server
    bears, when [available] holds. *)
Definition due_builtin_names
  (available : bool) (projectSettings : ProjectSettings) : list string :=
  if available
  then filter (λ n, n ∉ name <$> userServers projectSettings) getZaiBuiltInServerNames
  else [].

(** The claim as the specification words it: the result is the user's
    servers followed by the built-in servers that are due, which are due
    exactly when ZAI_API_KEY is set; and no name occurs twice. *)
Definition spec_loadMCPConfig
  (projectSettings : ProjectSettings) (process_env : gmap string string) : Prop :=
  (∃ builtins,
     servers (loadMCPConfig projectSettings process_env)
     = userServers projectSettings ++ builtins
     ∧ name <$> builtins
       = due_builtin_names (bool_decide (is_Some (process_env !! "ZAI_API_KEY")))
           projectSettings)
  ∧ NoDup (name <$> servers (loadMCPConfig projectSettings process_env)).

(** *** Concrete settings *)

Definition settings_two_keys_one_name : ProjectSettings :=
  mkProjectSettings None
    (Some [ ("a", sse_server "docs" "https://a.example/sse");
            ("b", sse_server "docs" "https://b.example/sse") ]).

Definition settings_without_servers : ProjectSettings :=
  mkProjectSettings None None.

Definition settings_with_zread : ProjectSettings :=
  mkProjectSettings None
    (Some [ ("zai-zread", sse_server "zai-zread" "https://mirror.example/sse") ]).

End McpConfig.

(** ** src/dist/tools/web-search.js *)

Module WebSearch.

Record WebSearchResult := mkWebSearchResult {
  title : option string;
  content : option string;
  link : option string;
  media : option string;
  publish_date : option string;
}.

(** The parsed body of an answer of the search API. *)
Record WebSearchResponse := mkWebSearchResponse {
  search_result : option (list WebSearchResult);
  request_id : option string;
}.

Module Options.
Record t := mk {
  search_engine : option string;
  count : option number;
  search_domain_filter : option string;
  search_recency_filter : option string;
  content_size : option string;
}.
Definition empty : t := mk None None None None None.
End Options.

Record RequestBody := mkRequestBody {
  search_engine : string;
  search_query : string;
  count : number;
  search_recency_filter : string;
  content_size : string;
  search_domain_filter : option string;
}.

Record RequestInit := mkRequestInit {
  method : string;
  headers : gmap string string;
  body : string;
}.

(** An answer of [fetch]: [text] and [json] are what reading the body as
    text, or parsing it, completes with; a body that parses to [null] is
    [Normal None]. *)
Record Response := mkResponse {
  ok : bool;
  status : Z;
  text : completion string;
  json : completion (option WebSearchResponse);
}.

(** The [data] of a successful search. *)
Module Data.
Record t := mk {
  results : list WebSearchResult;
  count : nat;
  request_id : option string;
}.
End Data.

Record WebSearchTool := mkWebSearchTool {
  apiKey : string;
  baseURL : string;
}.

Definition WebSearchTool_new
  (apiKey baseURL : option string) (process_env : gmap string string)
  : WebSearchTool :=
  mkWebSearchTool
    (or_default (or_else apiKey (process_env !! "ZAI_API_KEY")) EmptyString)
    (or_default (or_else baseURL (process_env !! "ZAI_BASE_URL")) "https://api.z.ai").

(** The request body [search] builds from its arguments. *)
Definition requestBody (query : string) (options : Options.t) : RequestBody :=
  let search_engine := default "search-prime" (Options.search_engine options) in
  let count := default (Finite 10) (Options.count options) in
  let search_domain_filter := Options.search_domain_filter options in
  let search_recency_filter :=
    default "noLimit" (Options.search_recency_filter options) in
  let content_size := default "medium" (Options.content_size options) in
  mkRequestBody
    search_engine
    query
    (Math_min (Math_max count (Finite 1)) (Finite 50))
    search_recency_filter
    content_size
    (if truthy search_domain_filter then search_domain_filter else None).

(** One turn of the [forEach] of [formatSearchResults]; reading the length
    of a missing [content] throws. *)
Definition formatSearchResult (index : nat) (result : WebSearchResult)
  : completion string :=
  content ←
    match content result with
    | Some c => Normal c
    | None =>
        Throw (new_TypeError "Cannot read properties of undefined (reading 'length')")
    end;
  let maxContentLength := 300 in
  let content :=
    if maxContentLength <? String.length content
    then String.substring 0 maxContentLength content +:+ "..."
    else content in
  Normal
    ("[" +:+ pretty (index + 1) +:+ "] " +:+ template (title result) +:+ nl
     +:+ "    Source: " +:+ template (media result)
     +:+ (if truthy (publish_date result)
          then " (" +:+ template (publish_date result) +:+ ")"
          else "")
     +:+ nl
     +:+ "    URL: " +:+ template (link result) +:+ nl
     +:+ "    Summary: " +:+ content +:+ nl +:+ nl).

Fixpoint formatSearchResults_from
  (index : nat) (results : list WebSearchResult) (output : string)
  : completion string :=
  match results with
  | [] => Normal output
  | result :: rest =>
      lines ← formatSearchResult index result;
      formatSearchResults_from (S index) rest (output +:+ lines)
  end.

Definition formatSearchResults (results : list WebSearchResult) (query : string)
  : completion string :=
  output ←
    formatSearchResults_from 0 results
      ("Web search results for " +:+ dquote +:+ query +:+ dquote +:+ ":" +:+ nl +:+ nl);
  Normal (trim output).

(** The network: [fetch], and the serialisation of the request body.
    [World] is the state of everything outside the process. *)
Class Network := {
  World : Type;
  fetch : World → string → RequestInit → World * completion Response;
  JSON_stringify : RequestBody → string;
}.

Section WithNetwork.

Context {N : Network}.

Definition search_init (this : WebSearchTool) (request : RequestBody) : RequestInit :=
  mkRequestInit "POST"
    {[ "Content-Type" := "application/json";
       "Authorization" := "Bearer " +:+ apiKey this ]}
    (JSON_stringify request).

(** What [search] does with the completion of [fetch], inside its [try]. *)
Definition search_answer (query : string) (fetched : completion Response)
  : completion (ToolResult Data.t) :=
  response ← fetched;
  if negb (ok response) then
    errorText ← text response;
    Normal (mkToolResult false None
              (Some ("Web search failed (" +:+ pretty (status response) +:+ "): "
                     +:+ errorText))
              None)
  else
    parsed ← json response;
    data ←
      match parsed with
      | Some data => Normal data
      | None =>
          Throw (new_TypeError
                   "Cannot read properties of null (reading 'search_result')")
      end;
    match search_result data with
    | None | Some [] =>
        Normal (mkToolResult true
                  (Some ("No results found for " +:+ dquote +:+ query +:+ dquote))
                  None None)
    | Some results =>
        formattedResults ← formatSearchResults results query;
        Normal (mkToolResult true (Some formattedResults) None
                  (Some (Data.mk results (length results) (request_id data))))
    end.

Definition search
  (w : World) (this : WebSearchTool) (query : string) (options : Options.t)
  : World * completion (ToolResult Data.t) :=
  if negb (truthy (Some (apiKey this))) then
    (w, Normal (mkToolResult false None
                  (Some "ZAI_API_KEY is required for web search. Set it in your environment.")
                  None))
  else
    let '(w', fetched) :=
      fetch w (baseURL this +:+ "/api/tools/web_search")
        (search_init this (requestBody query options)) in
    (w', try_catch (search_answer query fetched)
           (λ error,
              Normal (mkToolResult false None
                        (Some ("Web search error: " +:+ message error)) None))).

End WithNetwork.

(** *** Concrete searches *)

Definition options_with_count (c : number) : Options.t :=
  Options.mk None (Some c) None None None.

End WebSearch.

(** ** src/src/tools/batch-editor.ts *)

Module BatchEditor.

Inductive Position :=
| AtStart
| AtEnd
| At (line character : Z).

(** Line numbers and character offsets are integers. *)
Module Params.
Record t := mk {
  search : option string;
  replace : option string;
  regex : option bool;
  caseSensitive : option bool;
  wholeWord : option bool;
  content : option string;
  position : option Position;
  startLine : option Z;
  endLine : option Z;
  oldName : option string;
  newName : option string;
}.
Definition empty : t :=
  mk None None None None None None None None None None None.
End Params.

Module Operation.
Record t := mk {
  type : string;
  files : option (list string);
  pattern : option string;
  searchType : option string;
  includePattern : option string;
  excludePattern : option string;
  params : Params.t;
}.
End Operation.

Record BatchEditResult := mkBatchEditResult {
  file : string;
  success : bool;
  changes : option nat;
  error : option string;
  preview : option string;
}.

(** A regular expression is its source and its flags. *)
Record RegExp := mkRegExp {
  source : string;
  flags : string;
}.

Definition lines_of (content : string) : list string := split "010" content.

Definition applyInsert (content : string) (params : Params.t) : string :=
  match Params.content params with
  | None => content
  | Some inserted =>
      if negb (truthy (Some inserted)) then content
      else
        let lines := lines_of content in
        match Params.position params with
        | Some AtStart => inserted +:+ nl +:+ content
        | Some AtEnd => content +:+ nl +:+ inserted
        | Some (At line character) =>
            if ((line <? 0) || (Z.of_nat (length lines) <=? line))%Z
            then content
            else
              let targetLine := default EmptyString (lines !! Z.to_nat line) in
              join nl
                (<[ Z.to_nat line :=
                      slice targetLine 0 character +:+ inserted
                      +:+ slice_from targetLine character ]> lines)
        | None => content
        end
  end.

Definition applyDelete (content : string) (params : Params.t) : string :=
  match Params.startLine params, Params.endLine params with
  | Some startLine, Some endLine =>
      let lines := lines_of content in
      if ((startLine <? 0) || (endLine <? 0)
          || (Z.of_nat (length lines) <=? startLine)
          || (Z.of_nat (length lines) <=? endLine)
          || (endLine <? startLine))%Z
      then content
      else join nl (splice lines startLine (endLine - startLine + 1))
  | _, _ => content
  end.

(** [oldLines[i] !== newLines[i]], where a missing line is [undefined]. *)
Definition line_differs (oldLines newLines : list string) (i : nat) : bool :=
  bool_decide (oldLines !! i ≠ newLines !! i).

Definition countChanges (oldContent newContent : string) : nat :=
  let oldLines := lines_of oldContent in
  let newLines := lines_of newContent in
  let maxLength := length oldLines `max` length newLines in
  length (filter (λ i, line_differs oldLines newLines i = true) (seq 0 maxLength)).

(** One turn of the loop of [generatePreview]; the state is the preview
    built so far and the number of changes shown. *)
Definition preview_step (oldLines newLines : list string) (maxChanges : nat)
  (state : string * nat) (i : nat) : string * nat :=
  let '(preview, changesShown) := state in
  if (changesShown <? maxChanges) && line_differs oldLines newLines i then
    let removed :=
      match oldLines !! i with
      | Some l => "  -" +:+ l +:+ nl
      | None => EmptyString
      end in
    let added :=
      match newLines !! i with
      | Some l => "  +" +:+ l +:+ nl
      | None => EmptyString
      end in
    (preview +:+ removed +:+ added, S changesShown)
  else state.

Definition generatePreview (oldContent newContent : string) (maxChanges : nat)
  : string :=
  let oldLines := lines_of oldContent in
  let newLines := lines_of newContent in
  let maxLength := length oldLines `max` length newLines in
  let '(preview, changesShown) :=
    foldl (preview_step oldLines newLines maxChanges) (EmptyString, 0)
      (seq 0 maxLength) in
  if changesShown =? 0 then "  (no changes)" +:+ nl
  else if maxChanges <? countChanges oldContent newContent then
    preview +:+ "  ... (" +:+ pretty (countChanges oldContent newContent - maxChanges)
    +:+ " more changes)" +:+ nl
  else preview.

(** The loop of [chunkArray], from index [i]; [fuel] bounds the number of
    turns. *)
Fixpoint chunks_from {T} (fuel : nat) (array : list T) (chunkSize i : nat)
  : list (list T) :=
  match fuel with
  | 0 => []
  | S fuel' =>
      if i <? length array
      then take chunkSize (drop i array)
           :: chunks_from fuel' array chunkSize (i + chunkSize)
      else []
  end.

Definition chunkArray {T} (array : list T) (chunkSize : nat) : list (list T) :=
  chunks_from (length array) array chunkSize 0.

Definition maxConcurrency : nat := 5.

Definition changes_or_0 (r : BatchEditResult) : nat := default 0 (changes r).

Definition failed_line (f : BatchEditResult) : string :=
  "  - " +:+ file f +:+ ": " +:+ template (error f) +:+ nl.

Definition modified_line (f : BatchEditResult) : string :=
  "  - " +:+ file f +:+ " (" +:+ pretty (changes_or_0 f) +:+ " lines changed)" +:+ nl.

Definition formatResults (results : list BatchEditResult) : ToolResult unit :=
  let successful := filter (λ r, success r = true) results in
  let failed := filter (λ r, success r = false) results in
  let totalChanges := foldl (λ sum r, sum + changes_or_0 r) 0 successful in
  let filesChanged := length (filter (λ r, 0 < changes_or_0 r) successful) in
  let output :=
    "Batch Edit Complete" +:+ nl +:+ nl
    +:+ "Summary:" +:+ nl
    +:+ "  Successful: " +:+ pretty (length successful) +:+ "/"
    +:+ pretty (length results) +:+ " files" +:+ nl
    +:+ "  Files changed: " +:+ pretty filesChanged +:+ nl
    +:+ "  Total line changes: " +:+ pretty totalChanges +:+ nl +:+ nl in
  let output :=
    if 0 <? length failed then
      foldl (λ out f, out +:+ failed_line f)
        (output +:+ "Failed files:" +:+ nl) failed
      +:+ nl
    else output in
  let changedFiles := filter (λ f, 0 < changes_or_0 f) successful in
  let output :=
    if 0 <? length changedFiles then
      foldl (λ out f, out +:+ modified_line f)
        (output +:+ "Modified files:" +:+ nl) changedFiles
    else output +:+ "No files were modified (no changes needed)." +:+ nl in
  mkToolResult (bool_decide (length failed = 0)) (Some output) None None.

(** *** The effectful part

    The editor reaches the file system, the search tool, the
    confirmation service, the backup manager and the regular-expression
    engine of the runtime. [World] is the state of all that lies outside the
    editor; reading a file or the session flags observes it, every other
    call may change it. The files of one chunk are handled one after the
    other, in the order of the chunk. *)

Record SearchOptions := mkSearchOptions {
  so_searchType : string;
  so_includePattern : option string;
  so_excludePattern : option string;
}.

Record SessionFlags := mkSessionFlags {
  fileOperations : bool;
  allOperations : bool;
}.

Record ConfirmationOptions := mkConfirmationOptions {
  co_operation : string;
  co_filename : option string;
  co_showVSCodeOpen : bool;
  co_content : string;
}.

Record ConfirmationResult := mkConfirmationResult {
  confirmed : bool;
}.

(** What the editor uses of the runtime and of its collaborators:
    [path.resolve]; the file system ([fs.existsSync] and [fs.writeFile] of
    the fs-extra namespace, [readFile] of fs/promises); the search tool; the
    confirmation service (its session flags and its dialog); [createBackup]
    of the backup manager, which catches its own failures and so always
    fulfils; and the regular-expression engine (whether [new RegExp] accepts
    a pattern, [String.prototype.replace], and the first group of
    [String.prototype.match]). A call of [fs.existsSync] or of
    [fs.writeFile] can throw: where the module is loaded as an ES module
    the namespace of fs-extra has no such member, and the call is a
    TypeError. *)
Class Runtime := {
  World : Type;
  path_resolve : string → string;
  existsSync : World → string → completion bool;
  readFile : World → string → completion string;
  writeFile : World → string → string → World * completion unit;
  SearchTool_search :
    World → string → SearchOptions → World * completion (ToolResult unit);
  getSessionFlags : World → SessionFlags;
  ConfirmationService_requestConfirmation :
    World → ConfirmationOptions → string → World * completion ConfirmationResult;
  BackupManager_createBackup : World → string → World;
  regexp_syntax_ok : string → string → bool;
  String_replace : string → RegExp → string → string;
  String_match_1 : string → RegExp → option string;
}.

Section WithRuntime.

Context {R : Runtime}.

(** An asynchronous computation: it takes the world to a new world and
    settles with a completion. *)
Definition IO (A : Type) : Type := World → World * completion A.

Definition IO_ret {A} (a : A) : IO A := λ w, (w, Normal a).

Definition IO_bind {A B} (m : IO A) (k : A → IO B) : IO B := λ w,
  let '(w', c) := m w in
  match c with
  | Normal a => k a w'
  | Throw e => (w', Throw e)
  end.

#[local] Notation "'let*' x ':=' m 'in' k" := (IO_bind m (λ x, k))
  (at level 10, x name, m at level 100, k at level 200, only parsing).

Definition IO_try {A} (body : IO A) (handler : Error → IO A) : IO A := λ w,
  let '(w', c) := body w in
  match c with
  | Normal a => (w', Normal a)
  | Throw e => handler e w'
  end.

(** [new RegExp(pattern, flags)] throws on a pattern the engine refuses. *)
Definition RegExp_new (pattern flags : string) : completion RegExp :=
  if regexp_syntax_ok pattern flags then Normal (mkRegExp pattern flags)
  else Throw (mkError "SyntaxError" ("Invalid regular expression: /" +:+ pattern +:+ "/")).

(** [s.replace(/[.*+?^${}()|[\]\\]/g, "\\$&")] *)
Definition escapeRegExp (s : string) : string :=
  String_replace s (mkRegExp "[.*+?^${}()|[\]\\]" "g") "\$&".

Definition applySearchReplace (content : string) (params : Params.t)
  : completion string :=
  match Params.search params, Params.replace params with
  | Some search, Some replace =>
      if negb (truthy (Some search)) then Normal content
      else
        let flags :=
          "g" +:+ (if default false (Params.caseSensitive params)
                   then EmptyString else "i") in
        if default false (Params.regex params) then
          match RegExp_new search flags with
          | Normal pattern => Normal (String_replace content pattern replace)
          | Throw _ => Normal content
          end
        else
          let escaped := escapeRegExp search in
          let wordBoundary :=
            if default false (Params.wholeWord params) then "\b" else EmptyString in
          pattern ← RegExp_new (wordBoundary +:+ escaped +:+ wordBoundary) flags;
          Normal (String_replace content pattern replace)
  | _, _ => Normal content
  end.

Definition applyRenameSymbol (content : string) (params : Params.t)
  : completion string :=
  if negb (truthy (Params.oldName params)) || negb (truthy (Params.newName params))
  then Normal content
  else
    let escaped := escapeRegExp (default EmptyString (Params.oldName params)) in
    pattern ← RegExp_new ("\b" +:+ escaped +:+ "\b") "g";
    Normal (String_replace content pattern
              (default EmptyString (Params.newName params))).

Definition applyOperation (content : string) (operation : Operation.t)
  : completion string :=
  let type := Operation.type operation in
  let params := Operation.params operation in
  if String.eqb type "search-replace" then applySearchReplace content params
  else if String.eqb type "insert" then Normal (applyInsert content params)
  else if String.eqb type "delete" then Normal (applyDelete content params)
  else if String.eqb type "rename-symbol" then applyRenameSymbol content params
  else Normal content.

(** [files.add(x)] on a set that keeps insertion order. *)
Definition Set_add (files : list string) (x : string) : list string :=
  if bool_decide (x ∈ files) then files else files ++ [x].

Definition parseSearchResults_line (files : list string) (line : string)
  : list string :=
  let trimmed := trim line in
  if String.prefix "Search results" trimmed
     || String.prefix "..." trimmed
     || (String.length trimmed =? 0)
  then files
  else
    match String_match_1 trimmed (mkRegExp "^(.+?):" EmptyString) with
    | Some path => Set_add files path
    | None =>
        match
          String_match_1 trimmed
            (mkRegExp
               "^([^\s]+\.(ts|js|tsx|jsx|py|go|rs|java|cpp|c|h|css|scss|html|json|md|txt|yml|yaml))"
               "i")
        with
        | Some path => Set_add files path
        | None => files
        end
    end.

Definition parseSearchResults (output : string) : list string :=
  foldl parseSearchResults_line [] (lines_of output).

(** [files.filter((file) => fs.existsSync(file))]: the files are tested in
    order, and a test that throws ends the filter. *)
Fixpoint filter_existing (w : World) (files : list string)
  : completion (list string) :=
  match files with
  | [] => Normal []
  | file :: rest =>
      found ← existsSync w file;
      kept ← filter_existing w rest;
      Normal (if (found : bool) then file :: kept else kept)
  end.

Definition resolveFiles (operation : Operation.t) : IO (list string) :=
  match Operation.files operation with
  | Some (f :: fs) =>
      λ w, (w, filter_existing w (path_resolve <$> (f :: fs)))
  | _ =>
      if truthy (Operation.pattern operation) then
        let* searchResult :=
          (λ w, SearchTool_search w (default EmptyString (Operation.pattern operation))
                  (mkSearchOptions
                     (or_default (Operation.searchType operation) "files")
                     (Operation.includePattern operation)
                     (Operation.excludePattern operation))) in
        if negb (Types.success searchResult) then IO_ret []
        else
          let fileList :=
            parseSearchResults (or_default (output searchResult) EmptyString) in
          IO_ret (path_resolve <$> fileList)
      else IO_ret []
  end.

Definition previewChanges_file (w : World) (file : string) (operation : Operation.t)
  : BatchEditResult :=
  match
    content ← readFile w file;
    newContent ← applyOperation content operation;
    Normal (mkBatchEditResult file true
              (Some (countChanges content newContent)) None
              (Some (generatePreview content newContent 5)))
  with
  | Normal preview => preview
  | Throw error => mkBatchEditResult file false None (Some (message error)) None
  end.

Definition previewChanges (files : list string) (operation : Operation.t)
  : IO (list BatchEditResult) := λ w,
  (w, Normal ((λ file, previewChanges_file w file operation) <$> take 3 files)).

Definition confirmContent
  (files : list string) (previewResults : list BatchEditResult)
  (operation : Operation.t) : string :=
  let confirmContent :=
    "Batch Edit: " +:+ Operation.type operation +:+ nl +:+ nl
    +:+ "Files to modify: " +:+ pretty (length files) +:+ nl +:+ nl
    +:+ "Preview (first " +:+ pretty (3 `min` length files) +:+ " files):" +:+ nl in
  let confirmContent :=
    foldl
      (λ acc preview,
         let acc := acc +:+ nl +:+ file preview +:+ ":" +:+ nl in
         if success preview then
           let acc :=
             acc +:+ "  Changes: "
             +:+ default "undefined" (pretty <$> changes preview)
             +:+ " lines" +:+ nl in
           if truthy (BatchEditor.preview preview)
           then acc +:+ default EmptyString (BatchEditor.preview preview)
           else acc
         else acc +:+ "  Error: " +:+ template (error preview) +:+ nl)
      confirmContent previewResults in
  if 3 <? length files
  then confirmContent +:+ nl +:+ "... and " +:+ pretty (length files - 3)
       +:+ " more files" +:+ nl
  else confirmContent.

Definition requestConfirmation
  (files : list string) (previewResults : list BatchEditResult)
  (operation : Operation.t) : IO bool := λ w,
  let sessionFlags := getSessionFlags w in
  if fileOperations sessionFlags || allOperations sessionFlags then (w, Normal true)
  else
    (let* confirmationResult :=
       (λ w, ConfirmationService_requestConfirmation w
               (mkConfirmationOptions
                  ("Batch edit " +:+ pretty (length files) +:+ " files")
                  (head files) false
                  (confirmContent files previewResults operation))
               "file") in
     IO_ret (confirmed confirmationResult)) w.

Definition processFile (file : string) (operation : Operation.t)
  : IO BatchEditResult :=
  IO_try
    (let* content := (λ w, (w, readFile w file)) in
     let* newContent := (λ w, (w, applyOperation content operation)) in
     if String.eqb content newContent then
       IO_ret (mkBatchEditResult file true (Some 0) None None)
     else
       let* _ := (λ w, (BackupManager_createBackup w file, Normal tt)) in
       let* _ := (λ w, writeFile w file newContent) in
       IO_ret (mkBatchEditResult file true
                 (Some (countChanges content newContent)) None None))
    (λ error,
       IO_ret (mkBatchEditResult file false None (Some (message error)) None)).

(** What [Promise.allSettled] reports for one file of a chunk: the value
    of a fulfilled promise, a failure for the file of a rejected one. *)
Definition settled_result (file : string) (settled : completion BatchEditResult)
  : BatchEditResult :=
  match settled with
  | Normal value => value
  | Throw reason =>
      mkBatchEditResult file false None
        (Some (or_default (Some (message reason)) "Unknown error")) None
  end.

Fixpoint settle_chunk (chunk : list string) (operation : Operation.t)
  : IO (list BatchEditResult) :=
  match chunk with
  | [] => IO_ret []
  | file :: rest =>
      let* result :=
        (λ w, let '(w', settled) := processFile file operation w in
              (w', Normal (settled_result file settled))) in
      let* results := settle_chunk rest operation in
      IO_ret (result :: results)
  end.

Fixpoint settle_chunks (chunks : list (list string)) (operation : Operation.t)
  : IO (list BatchEditResult) :=
  match chunks with
  | [] => IO_ret []
  | chunk :: rest =>
      let* chunkResults := settle_chunk chunk operation in
      let* results := settle_chunks rest operation in
      IO_ret (chunkResults ++ results)
  end.

Definition executeBatchOperation (files : list string) (operation : Operation.t)
  : IO (list BatchEditResult) :=
  settle_chunks (chunkArray files maxConcurrency) operation.

Definition no_files_found : ToolResult unit :=
  mkToolResult false None (Some "No files found matching the criteria") None.

Definition cancelled_by_user : ToolResult unit :=
  mkToolResult false None (Some "Batch edit cancelled by user") None.

Definition batch_edit_failed (error : Error) : ToolResult unit :=
  mkToolResult false None (Some ("Batch edit failed: " +:+ message error)) None.

Definition batchEdit_body (operation : Operation.t) : IO (ToolResult unit) :=
  let* files := resolveFiles operation in
  if length files =? 0 then IO_ret no_files_found
  else
    let* previewResults := previewChanges files operation in
    let* shouldProceed := requestConfirmation files previewResults operation in
    if negb shouldProceed then IO_ret cancelled_by_user
    else
      let* results := executeBatchOperation files operation in
      IO_ret (formatResults results).

Definition batchEdit (operation : Operation.t) : IO (ToolResult unit) :=
  IO_try (batchEdit_body operation) (λ error, IO_ret (batch_edit_failed error)).

End WithRuntime.

(** *** The specification's reading, and the code's *)



(** What a result of [processFile] holds: a success counts its changes and
    has no error, a failure has an error and no count; neither has a
    preview. *)
Definition result_of_file (f : string) (r : BatchEditResult) : Prop :=
  file r = f
  ∧ preview r = None
  ∧ if success r then is_Some (changes r) ∧ error r = None
    else changes r = None ∧ is_Some (error r).


(** A position of [applyDelete] that the guard refuses. *)
Definition invalid_range (content : string) (startLine endLine : Z) : Prop :=
  (startLine < 0 ∨ endLine < 0
   ∨ Z.of_nat (length (lines_of content)) ≤ startLine
   ∨ Z.of_nat (length (lines_of content)) ≤ endLine
   ∨ startLine > endLine)%Z.

(** A line of [applyInsert] that the guard refuses. *)
Definition invalid_line (content : string) (line : Z) : Prop :=
  (line < 0 ∨ Z.of_nat (length (lines_of content)) ≤ line)%Z.

(** *** Concrete runs, on the in-memory file system

    The file system answers every call, as it does where the module is
    loaded as a CommonJS module. The session has file operations approved,
    the backup manager stores nothing, the search tool finds nothing and the
    regular-expression engine matches nothing; none of them is reached by
    the runs below. *)

Definition mem_runtime : Runtime := {|
  World := gmap string MemFs.node;
  path_resolve := λ path, path;
  existsSync := λ fs path, Normal (MemFs.existsSync fs path);
  readFile := MemFs.readFile;
  writeFile := MemFs.writeFile;
  SearchTool_search :=
    λ w _ _, (w, Normal (mkToolResult false None (Some "nothing found") None));
  getSessionFlags := λ _, mkSessionFlags true false;
  ConfirmationService_requestConfirmation :=
    λ w _ _, (w, Normal (mkConfirmationResult true));
  BackupManager_createBackup := λ w _, w;
  regexp_syntax_ok := λ _ _, true;
  String_replace := λ s _ _, s;
  String_match_1 := λ _ _, None;
|}.

Definition run_batchEdit (operation : Operation.t) (fs : gmap string MemFs.node)
  : gmap string MemFs.node * completion (ToolResult unit) :=
  batchEdit (R := mem_runtime) operation fs.

Definition delete_lines (files : list string) (startLine endLine : Z) : Operation.t :=
  Operation.mk "delete" (Some files) None None None None
    (Params.mk None None None None None None None
       (Some startLine) (Some endLine) None None).

Definition insert_at (files : list string) (inserted : string) (line character : Z)
  : Operation.t :=
  Operation.mk "insert" (Some files) None None None None
    (Params.mk None None None None None (Some inserted)
       (Some (At line character)) None None None None).

Definition two_lines : string := "alpha" +:+ nl +:+ "beta".

Definition fs_with_file : gmap string MemFs.node :=
  {[ "/project/notes.txt" := MemFs.File two_lines ]}.

(** *** A run as the ES-module build meets it

    Loaded as an ES module, the namespace of fs-extra has neither
    [existsSync] nor [writeFile], and both calls throw a TypeError;
    [readFile] of fs/promises works. The search tool answers with the
    output [found]. The session has file operations approved and the backup
    manager stores nothing. *)

(** The first group of [/^(.+?):/] on [s]: the shortest non-empty prefix of
    [s] that a colon follows; the dot matches no line terminator. *)
Fixpoint before_colon (s : string) : option string :=
  match s with
  | EmptyString => None
  | String c rest =>
      if Ascii.eqb c "010" || Ascii.eqb c "013" then None
      else
        match rest with
        | String ":" _ => Some (String c EmptyString)
        | _ => String c <$> before_colon rest
        end
  end.

(** The engine knows the expression that takes the path off a line of the
    form path:line:text; the runs reach no other expression. *)
Definition es_module_runtime (found : string) : Runtime := {|
  World := gmap string MemFs.node;
  path_resolve := λ path, path;
  existsSync := λ _ _, Throw (new_TypeError "fs.existsSync is not a function");
  readFile := MemFs.readFile;
  writeFile := λ fs _ _, (fs, Throw (new_TypeError "fs.writeFile is not a function"));
  SearchTool_search := λ w _ _, (w, Normal (mkToolResult true (Some found) None None));
  getSessionFlags := λ _, mkSessionFlags true false;
  ConfirmationService_requestConfirmation :=
    λ w _ _, (w, Normal (mkConfirmationResult true));
  BackupManager_createBackup := λ w _, w;
  regexp_syntax_ok := λ _ _, true;
  String_replace := λ s _ _, s;
  String_match_1 :=
    λ s re, if String.eqb (source re) "^(.+?):" then before_colon s else None;
|}.


End BatchEditor.

(** ** src/utils/backup-manager.ts *)

Module BackupManager.

Record BackupMetadata := mkBackupMetadata {
  originalPath : string;
  backupPath : string;
  timestamp : Z;
  size : Z;
  checksum : string;
}.

(** The manager object. Messages written with [console.error] are not
    part of the model. *)
Record BackupManager := mkBackupManager {
  backupDir : string;
  maxBackups : nat;
  backupIndex : gmap string (list BackupMetadata);
}.

(** [backups.sort((a, b) => b.timestamp - a.timestamp)]: newest first,
    and stable, as the sort of the runtime is. *)
Fixpoint insert_newest_first (b : BackupMetadata) (sorted : list BackupMetadata)
  : list BackupMetadata :=
  match sorted with
  | [] => [b]
  | b' :: rest =>
      if (timestamp b <? timestamp b')%Z
      then b' :: insert_newest_first b rest
      else b :: sorted
  end.

Definition sort_newest_first (backups : list BackupMetadata) : list BackupMetadata :=
  foldr insert_newest_first [] backups.

(** Truthiness of the optional [backupTimestamp]: [undefined] and [0] are
    falsy. *)
Definition truthy_timestamp (backupTimestamp : option Z) : bool :=
  match backupTimestamp with
  | Some t => negb (t =? 0)%Z
  | None => false
  end.

(** The file system, [path.resolve], and the SHA-256 digest in hexadecimal
    of the crypto library. Reading a file observes the world. *)
Class Runtime := {
  World : Type;
  path_resolve : string → string;
  readFile : World → string → completion string;
  writeFile : World → string → string → World * completion unit;
  sha256_hex : string → string;
}.

Section WithRuntime.

Context {R : Runtime}.

Definition computeChecksum (content : string) : string := sha256_hex content.

(** The part of [restoreBackup] that picks the backup: by its timestamp
    when one is given, the most recent one otherwise. Sorting reorders the
    entry of the index in place. [None] is the early [return false]. *)
Definition select_backup
  (this : BackupManager) (resolvedPath : string) (backupTimestamp : option Z)
  : option (BackupManager * BackupMetadata) :=
  match backupIndex this !! resolvedPath with
  | None | Some [] => None
  | Some backups =>
      if truthy_timestamp backupTimestamp then
        found ←
          List.find (λ b, (timestamp b =? default 0 backupTimestamp)%Z) backups;
        Some (this, found)
      else
        let sorted := sort_newest_first backups in
        backup ← head sorted;
        Some (mkBackupManager (backupDir this) (maxBackups this)
                (<[ resolvedPath := sorted ]> (backupIndex this)),
              backup)
  end.

Definition restoreBackup
  (this : BackupManager) (filePath : string) (backupTimestamp : option Z)
  (w : World) : World * BackupManager * bool :=
  let resolvedPath := path_resolve filePath in
  match select_backup this resolvedPath backupTimestamp with
  | None => (w, this, false)
  | Some (this', backup) =>
      (* try { ... } catch (error) { return false } *)
      match readFile w (backupPath backup) with
      | Throw _ => (w, this', false)
      | Normal content =>
          let checksum := computeChecksum content in
          if negb (String.eqb checksum (BackupManager.checksum backup))
          then (w, this', false)
          else
            let '(w', written) := writeFile w resolvedPath content in
            match written with
            | Normal _ => (w', this', true)
            | Throw _ => (w', this', false)
            end
      end
  end.

(** The backup [restoreBackup] would restore. *)
Definition selected_backup
  (this : BackupManager) (filePath : string) (backupTimestamp : option Z)
  : option BackupMetadata :=
  snd <$> select_backup this (path_resolve filePath) backupTimestamp.

End WithRuntime.

(** *** A concrete restore, on the in-memory file system *)

Definition backup_with_wrong_checksum : BackupMetadata :=
  mkBackupMetadata "/project/notes.txt" "/home/user/.zai/backups/notes.bak"
    1700000000000 11 "digest of the content before tampering".

Definition manager_with_wrong_checksum : BackupManager :=
  mkBackupManager "/home/user/.zai/backups" 50
    {[ "/project/notes.txt" := [backup_with_wrong_checksum] ]}.

Definition fs_with_backup : gmap string MemFs.node :=
  {[ "/project/notes.txt" := MemFs.File "current content";
     "/home/user/.zai/backups/notes.bak" := MemFs.File "backup content" ]}.

Definition backup_with_right_checksum : BackupMetadata :=
  mkBackupMetadata "/project/notes.txt" "/home/user/.zai/backups/notes.bak"
    1700000000000 11 "digest of the backup content".

Definition manager_with_right_checksum : BackupManager :=
  mkBackupManager "/home/user/.zai/backups" 50
    {[ "/project/notes.txt" := [backup_with_right_checksum] ]}.

(** A digest for the run: any function may stand for SHA-256 here, the
    theorem holds for all of them. *)
Definition digest_for_run (content : string) : string := "digest of the " +:+ content.

Definition mem_runtime : Runtime := {|
  World := gmap string MemFs.node;
  path_resolve := λ path, path;
  readFile := MemFs.readFile;
  writeFile := MemFs.writeFile;
  sha256_hex := digest_for_run;
|}.

End BackupManager.

(** ** Transport kinds: what a constructible configuration is *)

Module TransportKinds.

Import Transports.

(** The field the constructor of a kind checks. *)
Definition required_field (kind : string) (config : TransportConfig) : option string :=
  if String.eqb kind "stdio" then command config else url config.

(** A configuration names a recognised kind and carries a non-empty value
    in the field that kind requires. *)
Definition constructible (config : TransportConfig) : Prop :=
  ∃ kind, type config = Some kind
          ∧ kind ∈ recognized_kinds
          ∧ truthy (required_field kind config) = true.

(** The headers of the HTTP client: the caller's value where the caller
    gives one, application/json for Content-Type otherwise. *)
Definition expected_header (config : TransportConfig) (k : string) : option string :=
  match default ∅ (headers config) !! k with
  | Some v => Some v
  | None => if String.eqb k "Content-Type" then Some "application/json" else None
  end.

Definition config_stdio (cmd : string) (arguments : list string) : TransportConfig :=
  mkTransportConfig (Some "stdio") (Some cmd) (Some arguments) None None None.

Definition config_sse (u : string) : TransportConfig :=
  mkTransportConfig (Some "sse") None None None (Some u) None.

End TransportKinds.

(** ** Web search: outcomes and concrete networks *)

Module WebSearchOutcomes.

Import WebSearch.

Definition key_required : string :=
  "ZAI_API_KEY is required for web search. Set it in your environment.".

(** The three shapes a result of [search] can take. *)
Inductive outcome (query : string) (r : ToolResult Data.t) : Prop :=
| failed (msg : string) :
    success r = false → output r = None → data r = None →
    error r = Some msg →
    msg = key_required
    ∨ (∃ rest, msg = "Web search failed (" +:+ rest)
    ∨ (∃ rest, msg = "Web search error: " +:+ rest) →
    outcome query r
| nothing_found :
    success r = true → error r = None → data r = None →
    output r = Some ("No results found for " +:+ dquote +:+ query +:+ dquote) →
    outcome query r
| found (d : Data.t) (out : string) :
    success r = true → error r = None →
    data r = Some d → output r = Some out →
    Data.results d ≠ [] →
    Data.count d = length (Data.results d) →
    Forall (λ result, is_Some (content result)) (Data.results d) →
    outcome query r.

(** A network that logs every request and answers each one with [answer].
    The serialiser is a stand-in that keeps the query only. *)
Definition answering (answer : completion Response) : Network := {|
  World := list (string * RequestInit);
  fetch w url init := (w ++ [(url, init)], answer);
  JSON_stringify request := search_query request;
|}.

Definition titled (t : string) (c : option string) : WebSearchResult :=
  mkWebSearchResult (Some t) c (Some "https://example.org") (Some "Example") None.

Definition answer_with (results : list WebSearchResult) : completion Response :=
  Normal (mkResponse true 200 (Normal EmptyString)
            (Normal (Some (mkWebSearchResponse (Some results) (Some "req-1"))))).

End WebSearchOutcomes.

(** ** Lines of a text *)

Module Lines.

(** [s.includes(c)] for a one-character string [c]. *)
Fixpoint includes (c : ascii) (s : string) : bool :=
  match s with
  | EmptyString => false
  | String a rest => Ascii.eqb a c || includes c rest
  end.

(** A text without a line feed. *)
Definition single_line (s : string) : Prop := includes "010" s = false.

End Lines.

(** ** Batch editor: valid positions and further runtimes *)

Module BatchEditorRuns.

Import BatchEditor.

(** A range of [applyDelete] that the guard accepts. *)
Definition valid_range (content : string) (startLine endLine : Z) : Prop :=
  (0 ≤ startLine ∧ startLine ≤ endLine
   ∧ endLine < Z.of_nat (length (lines_of content)))%Z.

(** A line of [applyInsert] that the guard accepts. *)
Definition valid_line (content : string) (line : Z) : Prop :=
  (0 ≤ line ∧ line < Z.of_nat (length (lines_of content)))%Z.

(** A preview that begins with a removed or an added line. *)
Definition begins_with_change (preview : string) : Prop :=
  ∃ c rest,
    preview = String " " (String " " (String c rest))
    ∧ (c = "-"%char ∨ c = "+"%char).

(** The in-memory runtime with a session that has approved nothing, a
    user who answers the dialog with [answer], and a regular-expression
    engine that accepts a pattern when [accepts] says so and replaces
    nothing. *)
Definition asking_runtime (answer : bool) (accepts : string → bool) : Runtime := {|
  World := gmap string MemFs.node;
  path_resolve := λ path, path;
  existsSync := λ fs path, Normal (MemFs.existsSync fs path);
  readFile := MemFs.readFile;
  writeFile := MemFs.writeFile;
  SearchTool_search :=
    λ w _ _, (w, Normal (mkToolResult false None (Some "nothing found") None));
  getSessionFlags := λ _, mkSessionFlags false false;
  ConfirmationService_requestConfirmation :=
    λ w _ _, (w, Normal (mkConfirmationResult answer));
  BackupManager_createBackup := λ w _, w;
  regexp_syntax_ok := λ pattern _, accepts pattern;
  String_replace := λ s _ _, s;
  String_match_1 := λ _ _, None;
|}.

Definition insert_start (files : list string) (inserted : string) : Operation.t :=
  Operation.mk "insert" (Some files) None None None None
    (Params.mk None None None None None (Some inserted)
       (Some AtStart) None None None None).

Definition replace_regex (files : list string) (search replace : string)
  : Operation.t :=
  Operation.mk "search-replace" (Some files) None None None None
    (Params.mk (Some search) (Some replace) (Some true) None None None
       None None None None None).

End BatchEditorRuns.

(** ** Backup manager: creating, pruning and listing backups *)

Module BackupStore.

Import BackupManager.

(** [backups.sort((a, b) => a.timestamp - b.timestamp)]: oldest first,
    and stable. *)
Fixpoint insert_oldest_first (b : BackupMetadata) (sorted : list BackupMetadata)
  : list BackupMetadata :=
  match sorted with
  | [] => [b]
  | b' :: rest =>
      if (timestamp b' <? timestamp b)%Z
      then b' :: insert_oldest_first b rest
      else b :: sorted
  end.

Definition sort_oldest_first (backups : list BackupMetadata) : list BackupMetadata :=
  foldr insert_oldest_first [] backups.

(** Each backup of the list is related to all that follow it. *)
Fixpoint ordered (before : BackupMetadata → BackupMetadata → Prop)
  (backups : list BackupMetadata) : Prop :=
  match backups with
  | [] => True
  | b :: rest => Forall (before b) rest ∧ ordered before rest
  end.

Definition newest_first (backups : list BackupMetadata) : Prop :=
  ordered (λ a b, (timestamp b ≤ timestamp a)%Z) backups.

Definition oldest_first (backups : list BackupMetadata) : Prop :=
  ordered (λ a b, (timestamp a ≤ timestamp b)%Z) backups.

(** [s.replace(/\//g, "_")] *)
Fixpoint replace_slashes (s : string) : string :=
  match s with
  | EmptyString => EmptyString
  | String c rest =>
      String (if Ascii.eqb c "/" then "_"%char else c) (replace_slashes rest)
  end.

(** What the manager uses besides the runtime of [restoreBackup]:
    [existsSync], the size that [stat] reports, the clock, [path.basename],
    [path.dirname] and [path.join], [unlinkSync], [writeFileSync], and the
    serialisation of the index with [JSON.stringify]. The text of the
    serialised index follows the order in which the paths entered the index,
    which a finite map does not record; nothing below reads that text. *)
Class Store := {
  base :: Runtime;
  existsSync : World → string → bool;
  stat_size : World → string → completion Z;
  Date_now : World → Z;
  path_basename : string → string;
  path_dirname : string → string;
  path_join : string → string → string;
  unlinkSync : World → string → World * completion unit;
  writeFileSync : World → string → string → World * completion unit;
  JSON_stringify : gmap string (list BackupMetadata) → string;
}.

Section WithStore.

Context {S : Store}.

Definition with_index
  (this : BackupManager) (index : gmap string (list BackupMetadata))
  : BackupManager :=
  mkBackupManager (backupDir this) (maxBackups this) index.

(** [saveBackupIndex] catches the failure of the write. *)
Definition saveBackupIndex (this : BackupManager) (w : World) : World :=
  let indexPath := path_join (backupDir this) "index.json" in
  (writeFileSync w indexPath (JSON_stringify (backupIndex this))).1.

(** One turn of the loop of [pruneOldBackups]; a failure of [unlinkSync] is
    caught. *)
Definition remove_backup_file (w : World) (backup : BackupMetadata) : World :=
  if existsSync w (backupPath backup)
  then (unlinkSync w (backupPath backup)).1
  else w.

Definition pruneOldBackups (this : BackupManager) (filePath : string) (w : World)
  : World * BackupManager :=
  match backupIndex this !! filePath with
  | None => (w, this)
  | Some backups =>
      if length backups <=? maxBackups this then (w, this)
      else
        let sorted := sort_oldest_first backups in
        let toRemove := take (length sorted - maxBackups this) sorted in
        let kept := drop (length sorted - maxBackups this) sorted in
        (foldl remove_backup_file w toRemove,
         with_index this (<[ filePath := kept ]> (backupIndex this)))
  end.

(** The name of the backup file of [filePath] made at [timestamp]. *)
Definition backupFilename (filePath : string) (timestamp : Z) : string :=
  let basename := path_basename filePath in
  let dirname := replace_slashes (path_dirname filePath) in
  dirname +:+ "_" +:+ basename +:+ "_" +:+ pretty timestamp +:+ ".bak".

(** [createBackup]: the world and the manager it leaves, and the metadata
    it returns, [None] standing for [null]. Every failure inside is
    caught. *)
Definition createBackup (this : BackupManager) (filePath : string) (w : World)
  : World * BackupManager * option BackupMetadata :=
  let resolvedPath := path_resolve filePath in
  if negb (existsSync w resolvedPath) then (w, this, None)
  else
    match readFile w resolvedPath with
    | Throw _ => (w, this, None)
    | Normal content =>
        match stat_size w resolvedPath with
        | Throw _ => (w, this, None)
        | Normal size =>
            let timestamp := Date_now w in
            let backupPath :=
              path_join (backupDir this) (backupFilename filePath timestamp) in
            let '(w1, written) := writeFile w backupPath content in
            match written with
            | Throw _ => (w1, this, None)
            | Normal _ =>
                let metadata :=
                  mkBackupMetadata resolvedPath backupPath timestamp size
                    (computeChecksum content) in
                let key := resolvedPath in
                let backups := default [] (backupIndex this !! key) ++ [metadata] in
                let this1 := with_index this (<[ key := backups ]> (backupIndex this)) in
                let '(w2, this2) := pruneOldBackups this1 key w1 in
                (saveBackupIndex this2 w2, this2, Some metadata)
            end
        end
    end.

(** [getBackupHistory] sorts the entry of the index in place and returns
    it; a path without an entry gives a fresh empty array. *)
Definition getBackupHistory (this : BackupManager) (filePath : string)
  : BackupManager * list BackupMetadata :=
  let resolvedPath := path_resolve filePath in
  match backupIndex this !! resolvedPath with
  | Some backups =>
      let sorted := sort_newest_first backups in
      (with_index this (<[ resolvedPath := sorted ]> (backupIndex this)), sorted)
  | None => (this, [])
  end.

Definition getLatestBackup (this : BackupManager) (filePath : string)
  : BackupManager * option BackupMetadata :=
  let '(this', history) := getBackupHistory this filePath in
  (this', if 0 <? length history then head history else None).

(** The backups the index holds for a path. *)
Definition backups_of (this : BackupManager) (filePath : string)
  : list BackupMetadata :=
  default [] (backupIndex this !! path_resolve filePath).

(** No path has more backups than [maxBackups]. *)
Definition within_limit (this : BackupManager) : Prop :=
  ∀ path backups,
    backupIndex this !! path = Some backups → length backups ≤ maxBackups this.

End WithStore.

(** *** The in-memory store of the runs

    The clock shows [now]; the size of a file is its length; the directory
    and the base name of a path are what precedes and what follows its last
    slash, which is what [path.dirname] and [path.basename] give for the
    paths of the runs; the serialised index is a stand-in, which no run
    reads. *)

Definition mem_basename (path : string) : string :=
  default EmptyString (last (split "/" path)).

Definition mem_dirname (path : string) : string :=
  join "/" (removelast (split "/" path)).

Definition mem_stat_size (fs : gmap string MemFs.node) (path : string)
  : completion Z :=
  match fs !! path with
  | Some (MemFs.File content) => Normal (Z.of_nat (String.length content))
  | Some MemFs.Directory => Normal 4096%Z
  | None =>
      Throw (new_Error ("ENOENT: no such file or directory, stat '" +:+ path +:+ "'"))
  end.

Definition mem_unlinkSync (fs : gmap string MemFs.node) (path : string)
  : gmap string MemFs.node * completion unit :=
  match fs !! path with
  | Some (MemFs.File _) => (delete path fs, Normal tt)
  | Some MemFs.Directory =>
      (fs, Throw (new_Error ("EISDIR: illegal operation on a directory, unlink '"
                             +:+ path +:+ "'")))
  | None =>
      (fs, Throw (new_Error ("ENOENT: no such file or directory, unlink '"
                             +:+ path +:+ "'")))
  end.

Definition mem_store (now : Z) : Store := {|
  base := mem_runtime;
  existsSync := MemFs.existsSync;
  stat_size := mem_stat_size;
  Date_now := λ _, now;
  path_basename := mem_basename;
  path_dirname := mem_dirname;
  path_join := λ dir name, dir +:+ "/" +:+ name;
  unlinkSync := mem_unlinkSync;
  writeFileSync := MemFs.writeFile;
  JSON_stringify := λ _, "{}";
|}.

Definition backup_at (t : Z) : BackupMetadata :=
  mkBackupMetadata "/project/notes.txt"
    ("/home/user/.zai/backups/_project_notes.txt_" +:+ pretty t +:+ ".bak")
    t 11 "digest of the backup content".

Definition manager_with (limit : nat) (backups : list BackupMetadata)
  : BackupManager :=
  mkBackupManager "/home/user/.zai/backups" limit
    {[ "/project/notes.txt" := backups ]}.

Definition empty_manager : BackupManager :=
  mkBackupManager "/home/user/.zai/backups" 50 ∅.

Definition fs_with_notes : gmap string MemFs.node :=
  {[ "/project/notes.txt" := MemFs.File "current content" ]}.

(** The backup of the notes made at 1700000000001. *)
Definition backup_of_notes : BackupMetadata :=
  mkBackupMetadata "/project/notes.txt"
    "/home/user/.zai/backups/_project_notes.txt_1700000000001.bak"
    1700000000001 15 "digest of the current content".

(** A backup of the notes at 1700000000001, by a manager that holds an
    older backup of them. *)
Definition backup_run : gmap string MemFs.node * BackupManager * option BackupMetadata :=
  createBackup (S := mem_store 1700000000001)
    (manager_with 50 [backup_at 1700000000000]) "/project/notes.txt" fs_with_notes.

(** The world after the backup and an edit of the notes. *)
Definition fs_after_edit : gmap string MemFs.node :=
  <[ "/project/notes.txt" := MemFs.File "edited content" ]> backup_run.1.1.

End BackupStore.

(** ** src/dist/utils/custom-instructions.js *)

Module CustomInstructions.

Definition INSTRUCTION_FILES : list string :=
  ["AGENTS.md"; "ZAI.md"; ".zai/ZAI.md"; ".zai/AGENTS.md"].

(** The runtime: [process.cwd], which throws when the working directory
    of the process is gone; [path.join], [fs.existsSync],
    [fs.readFileSync], and [String.prototype.trim], which strips the white
    space and the line terminators of Unicode from both ends. Reading
    observes the world and leaves it as it is. *)
Class Runtime := {
  World : Type;
  process_cwd : World → completion string;
  path_join : string → string → string;
  existsSync : World → string → bool;
  readFileSync : World → string → completion string;
  String_trim : string → string;
}.

Section WithRuntime.

Context {R : Runtime}.

Definition header (file : string) : string := "<!-- From " +:+ file +:+ " -->".

(** One turn of the loop: the try block pushes at most one section; a
    file that cannot be read is skipped by the catch block. *)
Definition loadCustomInstructions_turn
  (w : World) (workingDirectory : string) (instructions : list string)
  (file : string) : list string :=
  let filePath := path_join workingDirectory file in
  if existsSync w filePath then
    match readFileSync w filePath with
    | Normal raw =>
        let content := String_trim raw in
        if truthy (Some content)
        then instructions ++ [header file +:+ nl +:+ content]
        else instructions
    | Throw _ => instructions
    end
  else instructions.

(** The default value of the parameter, [workingDirectory = process.cwd()]:
    it is evaluated when the argument is missing, before the body and
    outside its try blocks. *)
Definition directory (w : World) (workingDirectory : option string)
  : completion string :=
  match workingDirectory with
  | Some dir => Normal dir
  | None => process_cwd w
  end.

(** [loadCustomInstructions(workingDirectory)]; [None] stands for
    [null]. *)
Definition loadCustomInstructions (w : World) (workingDirectory : option string)
  : completion (option string) :=
  workingDirectory ← directory w workingDirectory;
  let instructions :=
    foldl (loadCustomInstructions_turn w workingDirectory) [] INSTRUCTION_FILES in
  if length instructions =? 0 then Normal None
  else Normal (Some (join (nl +:+ nl) instructions)).

(** A file that contributes nothing: it does not exist, it cannot be
    read, or nothing is left of it after trimming. *)
Definition skipped (w : World) (workingDirectory file : string) : Prop :=
  existsSync w (path_join workingDirectory file) = false
  ∨ (∃ e, readFileSync w (path_join workingDirectory file) = Throw e)
  ∨ (∃ raw, readFileSync w (path_join workingDirectory file) = Normal raw
            ∧ String_trim raw = EmptyString).

(** The section of a file that contributes: its header, a line feed, and
    its trimmed content. *)
Definition section_of (w : World) (workingDirectory file : string) : option string :=
  if existsSync w (path_join workingDirectory file) then
    match readFileSync w (path_join workingDirectory file) with
    | Normal raw =>
        if String.eqb (String_trim raw) EmptyString then None
        else Some (header file +:+ nl +:+ String_trim raw)
    | Throw _ => None
    end
  else None.

End WithRuntime.

(** *** A project on the in-memory file system

    Trimming is [trim] on the code units below 256, which is what the
    files of the run need. *)

Definition mem_runtime : Runtime := {|
  World := gmap string MemFs.node;
  process_cwd := λ _, Normal "/project";
  path_join := λ dir name, dir +:+ "/" +:+ name;
  existsSync := MemFs.existsSync;
  readFileSync := MemFs.readFile;
  String_trim := trim;
|}.

Definition project_with_instructions : gmap string MemFs.node :=
  {[ "/project/ZAI.md" := MemFs.File ("Use tabs." +:+ nl);
     "/project/AGENTS.md" := MemFs.File ("  Be brief." +:+ nl);
     "/project/.zai" := MemFs.Directory;
     "/project/.zai/ZAI.md" := MemFs.File (" " +:+ nl);
     "/project/.zai/AGENTS.md" := MemFs.Directory ]}.

End CustomInstructions.

(** * Part II: the properties *)

(** ** JavaScript basics *)

Module JsFacts.

Lemma split_not_nil (sep : ascii) (s : string) : split sep s ≠ [].
Proof.
  destruct s as [| c rest]; cbn; [done |].
  destruct (Ascii.eqb c sep); [done |]. by destruct (split sep rest).
Qed.

Lemma concat_cons (sep x : string) (l : list string) :
  l ≠ [] → String.concat sep (x :: l) = x +:+ sep +:+ String.concat sep l.
Proof. by destruct l. Qed.

(** Joining the lines of a text gives the text back. *)
Lemma join_split (s : string) : join nl (split "010" s) = s.
Proof.
  unfold join. induction s as [| c rest IH]; [done |]. cbn [split].
  pose proof (split_not_nil "010" rest) as Hne.
  destruct (Ascii.eqb_spec c "010") as [-> | Hc].
  - by rewrite concat_cons, IH.
  - destruct (split "010" rest) as [| piece pieces]; [done |].
    destruct pieces as [| piece' pieces].
    + cbn in *. by rewrite IH.
    + rewrite concat_cons in * by done. by rewrite <- IH.
Qed.

End JsFacts.

(** ** Results of tools *)

Module TypesFacts.




End TypesFacts.

Import TypesFacts.

(** ** Transports *)

Module TransportsFacts.

Import Transports.

Section WithExternals.

Context {E : Externals}.

(** *** Constructors *)

Lemma StdioTransport_new_falsy config :
  truthy (command config) = false →
  StdioTransport_new config
  = Throw (new_Error "Command is required for stdio transport").
Proof. unfold StdioTransport_new. by intros ->. Qed.

Lemma HttpTransport_new_falsy config :
  truthy (url config) = false →
  HttpTransport_new config = Throw (new_Error "URL is required for HTTP transport").
Proof. unfold HttpTransport_new. by intros ->. Qed.

Lemma SSETransport_new_falsy config :
  truthy (url config) = false →
  SSETransport_new config = Throw (new_Error "URL is required for SSE transport").
Proof. unfold SSETransport_new. by intros ->. Qed.

Lemma StreamableHttpTransport_new_falsy config :
  truthy (url config) = false →
  StreamableHttpTransport_new config
  = Throw (new_Error "URL is required for streamable_http transport").
Proof. unfold StreamableHttpTransport_new. by intros ->. Qed.

Lemma createTransport_stdio config :
  type config = Some "stdio" →
  createTransport config = t ← StdioTransport_new config; Normal (OfStdio t).
Proof. intros H. unfold createTransport. by rewrite decide_True. Qed.

Lemma createTransport_http config :
  type config = Some "http" →
  createTransport config = t ← HttpTransport_new config; Normal (OfHttp t).
Proof.
  intros H. unfold createTransport.
  rewrite decide_False by (rewrite H; discriminate). by rewrite decide_True.
Qed.

Lemma createTransport_sse config :
  type config = Some "sse" →
  createTransport config = t ← SSETransport_new config; Normal (OfSSE t).
Proof.
  intros H. unfold createTransport.
  do 2 rewrite decide_False by (rewrite H; discriminate). by rewrite decide_True.
Qed.

Lemma createTransport_streamable_http config :
  type config = Some "streamable_http" →
  createTransport config
  = t ← StreamableHttpTransport_new config; Normal (OfStreamableHttp t).
Proof.
  intros H. unfold createTransport.
  do 3 rewrite decide_False by (rewrite H; discriminate). by rewrite decide_True.
Qed.

(** C2. A configuration whose [type] is absent or is none of stdio, http,
    sse, streamable_http makes [createTransport] throw "Unsupported
    transport type: ..." at once; no transport object is produced. *)
Theorem createTransport_unrecognized_kind (config : TransportConfig) :
  (∀ k, type config = Some k → k ∉ recognized_kinds) →
  createTransport config
  = Throw (new_Error ("Unsupported transport type: " +:+ template (type config))).
Proof.
  intros Hkind. unfold createTransport.
  repeat case_decide; try reflexivity;
    match goal with
    | H : type config = Some ?k |- _ =>
        exfalso; apply (Hkind k H); unfold recognized_kinds; set_solver
    end.
Qed.

(** C3. A stdio configuration without a command and an http, sse or
    streamable_http configuration without a URL are refused by the
    constructor of their class, hence by [createTransport]: the result is a
    thrown error, so there is no transport on which connect could run. *)
Theorem construction_fails_without_required_field (config : TransportConfig) :
  missing_required_field config →
  (∃ e, createTransport config = Throw e)
  ∧ (command config = None →
     StdioTransport_new config
     = Throw (new_Error "Command is required for stdio transport"))
  ∧ (url config = None →
     HttpTransport_new config = Throw (new_Error "URL is required for HTTP transport")
     ∧ SSETransport_new config = Throw (new_Error "URL is required for SSE transport")
     ∧ StreamableHttpTransport_new config
       = Throw (new_Error "URL is required for streamable_http transport")).
Proof.
  intros Hmiss. split; [|split].
  - destruct Hmiss as [[Hty Hcmd] | [Hty Hurl]].
    + rewrite (createTransport_stdio _ Hty), StdioTransport_new_falsy
        by (by rewrite Hcmd).
      by eexists.
    + assert (Hf : truthy (url config) = false) by (by rewrite Hurl).
      apply elem_of_cons in Hty as [Hty | Hty];
        [| apply elem_of_cons in Hty as [Hty | Hty];
           [| apply list_elem_of_singleton in Hty]].
      * rewrite (createTransport_http _ Hty), HttpTransport_new_falsy by done.
        by eexists.
      * rewrite (createTransport_sse _ Hty), SSETransport_new_falsy by done.
        by eexists.
      * rewrite (createTransport_streamable_http _ Hty),
          StreamableHttpTransport_new_falsy by done.
        by eexists.
  - intros Hcmd. apply StdioTransport_new_falsy. by rewrite Hcmd.
  - intros Hurl. assert (Hf : truthy (url config) = false) by (by rewrite Hurl).
    auto using HttpTransport_new_falsy, SSETransport_new_falsy,
      StreamableHttpTransport_new_falsy.
Qed.

(** C4. On a streamable_http transport connect succeeds and hands out a
    channel, and every [send] on that channel, whatever the message, throws
    the error that names the incompatibility with the request-response
    pattern: it never returns a response and never returns nothing. *)
Theorem streamable_http_send_fails_fast
  (this : StreamableHttpTransport) (message : Message) :
  ∃ this' channel,
    StreamableHttpTransport_connect this = (this', Normal channel)
    ∧ sh_connected this' = true
    ∧ (StreamableHttpClientTransport_send channel message).2
      = Throw (new_Error incompatibility_message)
    ∧ ∃ pre post,
        incompatibility_message
        = pre +:+ "not compatible with MCP request-response pattern" +:+ post.
Proof.
  eexists _, _. repeat split.
  by exists "StreamableHttpTransport: SSE endpoints are ",
    ". GitHub Copilot MCP may require a different integration approach.".
Qed.

(** *** The subprocess environment *)

Lemma connect_env_fixed process_env config k v :
  fixed_env !! k = Some v →
  StdioTransport_connect_env process_env config !! k = Some v.
Proof.
  unfold fixed_env, StdioTransport_connect_env. intros Hk.
  repeat (apply lookup_insert_Some in Hk as [[<- <-] | [? Hk]];
          [by simplify_map_eq |]).
  apply lookup_singleton_Some in Hk as [<- <-]. by simplify_map_eq.
Qed.

Lemma connect_env_not_fixed process_env config k :
  fixed_env !! k = None →
  StdioTransport_connect_env process_env config !! k
  = spread process_env (env config) !! k.
Proof.
  unfold fixed_env, StdioTransport_connect_env. intros Hk.
  repeat (apply lookup_insert_None in Hk as [Hk ?]).
  apply lookup_singleton_None in Hk.
  by rewrite !lookup_insert_ne by done.
Qed.

(** C6, as the code has it. The subprocess environment is the inherited
    environment overridden by the configuration's [env], overridden in turn
    by the four variables [connect] fixes (MCP_REMOTE_QUIET, MCP_REMOTE_SILENT,
    DEBUG, NODE_ENV): a caller's variable other than these four reaches
    the subprocess with the caller's value, an inherited variable that the
    caller does not set and that is none of the four is passed on, and the
    four always carry the fixed values. *)
Theorem stdio_connect_environment
  (process_env : gmap string string) (this : StdioTransport) :
  ∃ this' tr,
    StdioTransport_connect process_env this = (this', Normal tr)
    ∧ (∀ k v, fixed_env !! k = Some v → sdk_env tr !! k = Some v)
    ∧ (∀ k v, fixed_env !! k = None →
         default ∅ (env (stdio_config this)) !! k = Some v →
         sdk_env tr !! k = Some v)
    ∧ (∀ k, fixed_env !! k = None →
         default ∅ (env (stdio_config this)) !! k = None →
         sdk_env tr !! k = process_env !! k).
Proof.
  eexists _, _. split; [reflexivity |]. cbn [sdk_env]. split; [|split].
  - intros k v. apply connect_env_fixed.
  - intros k v Hk Hc. rewrite connect_env_not_fixed by done.
    unfold spread. by apply lookup_union_Some_l.
  - intros k Hk Hc. rewrite connect_env_not_fixed by done.
    unfold spread. by rewrite lookup_union_r.
Qed.

(** *** The request-response transport *)

Lemma HttpTransport_connect_total (w : World) (this : HttpTransport) :
  ∃ w' client,
    HttpTransport_connect w this
    = (w', mkHttpTransport (http_config this) (Some client) true,
       Normal (mkHttpClientTransport client)).
Proof.
  unfold HttpTransport_connect.
  destruct (axios_get _ _ _) as [w' [m | e]]; by eexists _, _.
Qed.

(** C7. A request-response transport built from a configuration with a URL
    connects without raising, whatever the health-check request does
    (answer or failure): connect returns a channel and leaves the transport
    marked connected. Disconnect clears the connected flag and the client
    and touches nothing else. *)
Theorem http_connect_never_raises (w : World) (config : TransportConfig) :
  truthy (url config) = true →
  ∃ this, HttpTransport_new config = Normal this
    ∧ ∃ w' this' channel,
        HttpTransport_connect w this = (w', this', Normal channel)
        ∧ http_connected this' = true
        ∧ http_config this' = config
        ∧ HttpTransport_disconnect this' = mkHttpTransport config None false.
Proof.
  intros Hurl. unfold HttpTransport_new. rewrite Hurl.
  eexists. split; [reflexivity |].
  destruct (HttpTransport_connect_total w (mkHttpTransport config None false))
    as (w' & client & ->).
  by eexists _, _, _.
Qed.

End WithExternals.

(** *** Concrete runs *)

Lemma createTransport_ftp :
  createTransport (E := offline) (config_of_kind (Some "ftp"))
  = Throw (new_Error "Unsupported transport type: ftp").
Proof.
  apply (createTransport_unrecognized_kind (E := offline)
           (config_of_kind (Some "ftp"))).
  intros k [= <-] Hin. unfold recognized_kinds in Hin.
  repeat (apply elem_of_cons in Hin as [Hin | Hin]; [discriminate |]).
  by apply elem_of_nil in Hin.
Defined.

Lemma construction_fails_without_command_or_url :
  (∃ e, createTransport (E := offline) (config_of_kind (Some "stdio")) = Throw e)
  ∧ (∃ e, createTransport (E := offline) (config_of_kind (Some "sse")) = Throw e).
Proof.
  split.
  - apply (construction_fails_without_required_field (E := offline)
             (config_of_kind (Some "stdio"))).
    left. split; reflexivity.
  - apply (construction_fails_without_required_field (E := offline)
             (config_of_kind (Some "sse"))).
    right. split; [| reflexivity].
    apply list_elem_of_further, list_elem_of_here.
Defined.

(** C6, as the specification words it, fails: a caller's NODE_ENV does not
    reach the subprocess; [connect] replaces it by "production". *)
Lemma caller_NODE_ENV_is_overridden :
  ¬ caller_env_overrides ∅
      (mkStdioTransport (config_with_env {[ "NODE_ENV" := "development" ]}) None None).
Proof.
  intros H. destruct (H "NODE_ENV" "development") as (tr & Htr & Hk).
  { reflexivity. }
  injection Htr as <-. cbn [sdk_env] in Hk.
  revert Hk. vm_compute. discriminate.
Qed.

Lemma caller_PATH_reaches_the_subprocess :
  ∃ this' tr,
    StdioTransport_connect {[ "PATH" := "/usr/bin"; "NODE_ENV" := "test" ]}
      (mkStdioTransport (config_with_env {[ "PATH" := "/opt/bin" ]}) None None)
    = (this', Normal tr)
    ∧ sdk_env tr !! "PATH" = Some "/opt/bin"
    ∧ sdk_env tr !! "NODE_ENV" = Some "production".
Proof.
  destruct (stdio_connect_environment
              {[ "PATH" := "/usr/bin"; "NODE_ENV" := "test" ]}
              (mkStdioTransport (config_with_env {[ "PATH" := "/opt/bin" ]}) None None))
    as (this' & tr & Hconnect & Hfixed & Hcaller & _).
  exists this', tr. split; [exact Hconnect |]. split.
  - apply Hcaller; reflexivity.
  - apply Hfixed. reflexivity.
Defined.

Lemma http_connect_with_failing_health_check :
  ∃ this, HttpTransport_new (config_with_url "http://localhost:8080") = Normal this
    ∧ ∃ w' this' channel,
        HttpTransport_connect (E := offline) tt this = (w', this', Normal channel)
        ∧ http_connected this' = true
        ∧ http_config this' = config_with_url "http://localhost:8080"
        ∧ HttpTransport_disconnect this'
          = mkHttpTransport (config_with_url "http://localhost:8080") None false.
Proof.
  apply (http_connect_never_raises (E := offline) tt
           (config_with_url "http://localhost:8080")).
  reflexivity.
Defined.

End TransportsFacts.

(** ** MCP configuration *)

Module McpConfigFacts.

Import Transports McpConfig.

Lemma builtin_names process_env :
  name <$> getZaiBuiltInServers process_env
  = if isZaiMCPAvailable process_env then getZaiBuiltInServerNames else [].
Proof.
  unfold getZaiBuiltInServers, isZaiMCPAvailable.
  by destruct (truthy _).
Qed.

Lemma fmap_filter_name (P : string → Prop) `{∀ n, Decision (P n)}
  (l : list MCPServerConfig) :
  name <$> filter (λ s, P (name s)) l = filter P (name <$> l).
Proof.
  induction l as [| s l IH]; [done |].
  rewrite fmap_cons, !filter_cons. case_decide; by rewrite ?fmap_cons, IH.
Qed.

Lemma loadMCPConfig_servers projectSettings process_env :
  servers (loadMCPConfig projectSettings process_env)
  = userServers projectSettings
    ++ filter (λ s, name s ∉ name <$> userServers projectSettings)
         (getZaiBuiltInServers process_env).
Proof.
  unfold loadMCPConfig, userServers. cbn [servers].
  destruct (mcpServers projectSettings) as [o |];
    cbn [fmap option_fmap option_map default];
    f_equal; apply list_filter_iff; intros srv; by rewrite elem_of_list_to_set.
Qed.

Lemma NoDup_filter_builtin_names (P : string → Prop) `{∀ n, Decision (P n)}
  (b : bool) :
  NoDup (filter P (if b then getZaiBuiltInServerNames else [])).
Proof.
  apply NoDup_filter. destruct b; [| constructor].
  unfold getZaiBuiltInServerNames. apply NoDup_cons. split.
  - intros Hin. by apply list_elem_of_singleton in Hin.
  - apply NoDup_singleton.
Qed.

(** C1, as the code has it. The result lists the user's servers, as
    [Object.values] lists the values of [mcpServers], followed by those of
    the built-in servers zai-zread and zai-web-search whose name no user
    server bears, and these only when ZAI_API_KEY holds a non-empty value. A server of the result
    whose name a user server bears is a user server. When the user's
    servers bear pairwise distinct names, no name occurs twice in the
    result. *)
Theorem loadMCPConfig_user_servers_then_builtins
  (projectSettings : ProjectSettings) (process_env : gmap string string) :
  (∃ builtins,
     servers (loadMCPConfig projectSettings process_env)
     = userServers projectSettings ++ builtins
     ∧ name <$> builtins
       = due_builtin_names (isZaiMCPAvailable process_env) projectSettings
     ∧ ∀ s, s ∈ builtins →
         s ∈ getZaiBuiltInServers process_env
         ∧ name s ∉ name <$> userServers projectSettings)
  ∧ (isZaiMCPAvailable process_env = true
     ↔ ∃ key, process_env !! "ZAI_API_KEY" = Some key ∧ key ≠ "")
  ∧ (∀ s, s ∈ servers (loadMCPConfig projectSettings process_env) →
       name s ∈ name <$> userServers projectSettings →
       s ∈ userServers projectSettings)
  ∧ (NoDup (name <$> userServers projectSettings) →
     NoDup (name <$> servers (loadMCPConfig projectSettings process_env))).
Proof.
  rewrite loadMCPConfig_servers.
  set (users := userServers projectSettings).
  assert (Hnames :
    name <$> filter (λ s, name s ∉ name <$> users) (getZaiBuiltInServers process_env)
    = due_builtin_names (isZaiMCPAvailable process_env) projectSettings).
  { etrans; [exact (fmap_filter_name (λ n, n ∉ name <$> users) _) |].
    rewrite builtin_names.
    unfold due_builtin_names. by destruct (isZaiMCPAvailable _). }
  split; [| split; [| split]].
  - eexists. split; [reflexivity |]. split; [exact Hnames |].
    intros s Hs. by apply list_elem_of_filter in Hs as [Hs Hbuiltin].
  - unfold isZaiMCPAvailable, truthy.
    destruct (process_env !! "ZAI_API_KEY") as [key |].
    + rewrite negb_true_iff, String.eqb_neq. split.
      * intros Hne. by exists key.
      * by intros (key' & [= <-] & Hne).
    + split; [done |]. by intros (key & ? & _).
  - intros s Hs Hname. apply elem_of_app in Hs as [Hs | Hs]; [done |].
    by apply list_elem_of_filter in Hs as [Hs _].
  - intros Hnodup. rewrite fmap_app, Hnames. apply NoDup_app.
    split; [done |]. split.
    + intros n Hn Hdue. unfold due_builtin_names in Hdue.
      destruct (isZaiMCPAvailable _); [| by apply elem_of_nil in Hdue].
      by apply list_elem_of_filter in Hdue as [Hdue _].
    + unfold due_builtin_names.
      destruct (isZaiMCPAvailable _); [| constructor].
      apply (NoDup_filter_builtin_names _ true).
Qed.

(** *** Concrete runs *)

(** C1, as the specification words it, fails twice: two entries of the
    settings file that bear one name are both kept, so a name occurs twice;
    and a ZAI_API_KEY that is set to the empty string registers no built-in
    server. *)
Lemma loadMCPConfig_spec_fails :
  ¬ spec_loadMCPConfig settings_two_keys_one_name {[ "ZAI_API_KEY" := "k" ]}
  ∧ ¬ spec_loadMCPConfig settings_without_servers {[ "ZAI_API_KEY" := "" ]}.
Proof.
  split.
  - intros [_ Hnodup]. vm_compute in Hnodup.
    apply NoDup_cons in Hnodup as [Hnotin _]. apply Hnotin. left.
  - intros [(builtins & Hres & Hnames) _].
    vm_compute in Hres. destruct builtins; [| discriminate Hres].
    vm_compute in Hnames. discriminate Hnames.
Qed.

Lemma loadMCPConfig_user_zread_no_duplicate :
  NoDup (name <$> servers (loadMCPConfig settings_with_zread {[ "ZAI_API_KEY" := "k" ]})).
Proof.
  destruct (loadMCPConfig_user_servers_then_builtins settings_with_zread
              {[ "ZAI_API_KEY" := "k" ]}) as (_ & _ & _ & Hnodup).
  apply Hnodup. apply NoDup_singleton.
Defined.

Lemma loadMCPConfig_user_zread_kept :
  servers (loadMCPConfig settings_with_zread {[ "ZAI_API_KEY" := "k" ]})
  = [ sse_server "zai-zread" "https://mirror.example/sse";
      sse_server "zai-web-search"
        "https://api.z.ai/api/mcp/web_search/sse?Authorization=k" ].
Proof. by vm_compute. Qed.

End McpConfigFacts.

(** ** Web search *)

Module WebSearchFacts.

Import WebSearch WebSearchOutcomes.

Lemma number_lt_Finite (p q : Q) (b : bool) :
  number_lt (Finite p) (Finite q) = b →
  if b then (p < q)%Q else (q <= p)%Q.
Proof.
  cbn. intros <-. destruct (Qle_bool q p) eqn:Hle; cbn.
  - by apply Qle_bool_iff.
  - apply Qnot_le_lt. intros H. apply Qle_bool_iff in H. congruence.
Qed.

Lemma number_le_Finite (p q : Q) (b : bool) :
  number_le (Finite p) (Finite q) = b →
  if b then (p <= q)%Q else (q < p)%Q.
Proof.
  cbn. intros <-. destruct (Qle_bool p q) eqn:Hle.
  - by apply Qle_bool_iff.
  - apply Qnot_le_lt. intros H. apply Qle_bool_iff in H. congruence.
Qed.

(** Turns the comparisons among the hypotheses into inequalities of
    rationals and lets linear arithmetic finish. *)
Ltac compare_numbers :=
  repeat match goal with
         | H : number_lt (Finite _) (Finite _) = _ |- _ =>
             apply number_lt_Finite in H; cbn beta iota in H
         | H : number_le (Finite _) (Finite _) = _ |- _ =>
             apply number_le_Finite in H; cbn beta iota in H
         end;
  try lra.

Lemma clamp_below (c : number) :
  number_lt c (Finite 1) = true →
  Math_min (Math_max c (Finite 1)) (Finite 50) = Finite 1.
Proof.
  destruct c as [| | q |]; try discriminate; [done |].
  intros Hlt. unfold Math_max. by rewrite Hlt.
Qed.

Lemma clamp_above (c : number) :
  number_lt (Finite 50) c = true →
  Math_min (Math_max c (Finite 1)) (Finite 50) = Finite 50.
Proof.
  destruct c as [| | q |]; try discriminate; [| done].
  intros Hlt. unfold Math_max.
  destruct (number_lt (Finite q) (Finite 1)) eqn:Hlow; [compare_numbers |].
  unfold Math_min. by rewrite Hlt.
Qed.

Lemma clamp_within (c : number) :
  number_le (Finite 1) c = true → number_le c (Finite 50) = true →
  Math_min (Math_max c (Finite 1)) (Finite 50) = c.
Proof.
  destruct c as [| | q |]; try discriminate.
  intros Hlow Hhigh. unfold Math_max.
  destruct (number_lt (Finite q) (Finite 1)) eqn:Hlt; [compare_numbers |].
  unfold Math_min.
  destruct (number_lt (Finite 50) (Finite q)) eqn:Hgt; [compare_numbers | done].
Qed.

Lemma clamp_range (c : number) :
  c ≠ NaN →
  number_le (Finite 1) (Math_min (Math_max c (Finite 1)) (Finite 50)) = true
  ∧ number_le (Math_min (Math_max c (Finite 1)) (Finite 50)) (Finite 50) = true.
Proof.
  intros Hc. destruct c as [| | q |]; [done | done | | done].
  destruct (number_lt (Finite q) (Finite 1)) eqn:Hlt.
  - by rewrite clamp_below.
  - destruct (number_lt (Finite 50) (Finite q)) eqn:Hgt.
    + by rewrite clamp_above.
    + assert (Hlow : number_le (Finite 1) (Finite q) = true).
      { destruct (number_le (Finite 1) (Finite q)) eqn:Hle; [done | compare_numbers]. }
      assert (Hhigh : number_le (Finite q) (Finite 50) = true).
      { destruct (number_le (Finite q) (Finite 50)) eqn:Hle; [done | compare_numbers]. }
      by rewrite clamp_within.
Qed.

(** Not-a-number is the one count the clamp lets through. *)
Lemma clamp_NaN : Math_min (Math_max NaN (Finite 1)) (Finite 50) = NaN.
Proof. reflexivity. Qed.

Section WithNetwork.

Context {N : Network}.

(** With an API key, [search] calls [fetch] once, with the serialised
    [requestBody] as the body of the request. *)
Lemma search_sends_requestBody
  (w : World) (this : WebSearchTool) (query : string) (options : Options.t) :
  truthy (Some (apiKey this)) = true →
  ∃ w' fetched,
    fetch w (baseURL this +:+ "/api/tools/web_search")
      (mkRequestInit "POST"
         {[ "Content-Type" := "application/json";
            "Authorization" := "Bearer " +:+ apiKey this ]}
         (JSON_stringify (requestBody query options)))
    = (w', fetched)
    ∧ (search w this query options).1 = w'.
Proof.
  intros Hkey. unfold search, search_init. rewrite Hkey. cbn [negb].
  destruct (fetch _ _ _) as [w' fetched]. by exists w', fetched.
Qed.

Lemma requestBody_count (query : string) (options : Options.t) :
  (Options.count options = None →
   count (requestBody query options) = Finite 10)
  ∧ ∀ c, Options.count options = Some c →
      (number_lt c (Finite 1) = true →
       count (requestBody query options) = Finite 1)
      ∧ (number_lt (Finite 50) c = true →
         count (requestBody query options) = Finite 50)
      ∧ (number_le (Finite 1) c = true → number_le c (Finite 50) = true →
         count (requestBody query options) = c)
      ∧ (c ≠ NaN →
         number_le (Finite 1) (count (requestBody query options)) = true
         ∧ number_le (count (requestBody query options)) (Finite 50) = true).
Proof.
  unfold requestBody. cbn [count]. split.
  - intros ->. reflexivity.
  - intros c ->. cbn [default].
    auto using clamp_below, clamp_above, clamp_within, clamp_range.
Qed.

(** C8. A search by a tool that has an API key sends one request to the
    search API: [search] is the call of [fetch] on the web-search URL of the
    tool with a POST whose body is the serialisation of a request, followed
    by the handling of the answer. The request asks for the query, and its
    count is the count option clamped to 1..50: a count below 1 is sent as
    1, a count above 50 as 50, a count from 1 to 50 as it is, and a missing
    count as 10. Every count that is a number (every value but
    not-a-number) is sent as a value from 1 to 50. *)
Theorem search_count_is_clamped
  (w : World) (this : WebSearchTool) (query : string) (options : Options.t) :
  truthy (Some (apiKey this)) = true →
  ∃ request,
    search w this query options
    = (let '(w', fetched) :=
         fetch w (baseURL this +:+ "/api/tools/web_search")
           (mkRequestInit "POST"
              {[ "Content-Type" := "application/json";
                 "Authorization" := "Bearer " +:+ apiKey this ]}
              (JSON_stringify request)) in
       (w', try_catch (search_answer query fetched)
              (λ error,
                 Normal (mkToolResult false None
                           (Some ("Web search error: " +:+ message error)) None))))
    ∧ search_query request = query
    ∧ (Options.count options = None → count request = Finite 10)
    ∧ ∀ c, Options.count options = Some c →
        (number_lt c (Finite 1) = true → count request = Finite 1)
        ∧ (number_lt (Finite 50) c = true → count request = Finite 50)
        ∧ (number_le (Finite 1) c = true → number_le c (Finite 50) = true →
           count request = c)
        ∧ (c ≠ NaN →
           number_le (Finite 1) (count request) = true
           ∧ number_le (count request) (Finite 50) = true).
Proof.
  intros Hkey. exists (requestBody query options).
  split; [| split; [reflexivity | apply requestBody_count]].
  unfold search, search_init. by rewrite Hkey.
Qed.

(** *** The result of [search] *)



End WithNetwork.

(** *** Concrete runs *)

(** Four searches on a network that logs its requests: the world after
    each search holds the one request that was sent, and the count of that
    request is 1 for the option 0, 50 for 75, 7 for 7 and 10 for none. *)
Lemma search_counts_0_75_7_and_none :
  (∃ request,
     (search (N := answering (answer_with [])) []
        (mkWebSearchTool "k" "https://api.z.ai") "rocq"
        (options_with_count (Finite 0))).1
     = [("https://api.z.ai/api/tools/web_search",
         search_init (N := answering (answer_with []))
           (mkWebSearchTool "k" "https://api.z.ai") request)]
     ∧ count request = Finite 1)
  ∧ (∃ request,
       (search (N := answering (answer_with [])) []
          (mkWebSearchTool "k" "https://api.z.ai") "rocq"
          (options_with_count (Finite 75))).1
       = [("https://api.z.ai/api/tools/web_search",
           search_init (N := answering (answer_with []))
             (mkWebSearchTool "k" "https://api.z.ai") request)]
       ∧ count request = Finite 50)
  ∧ (∃ request,
       (search (N := answering (answer_with [])) []
          (mkWebSearchTool "k" "https://api.z.ai") "rocq"
          (options_with_count (Finite 7))).1
       = [("https://api.z.ai/api/tools/web_search",
           search_init (N := answering (answer_with []))
             (mkWebSearchTool "k" "https://api.z.ai") request)]
       ∧ count request = Finite 7)
  ∧ (∃ request,
       (search (N := answering (answer_with [])) []
          (mkWebSearchTool "k" "https://api.z.ai") "rocq" Options.empty).1
       = [("https://api.z.ai/api/tools/web_search",
           search_init (N := answering (answer_with []))
             (mkWebSearchTool "k" "https://api.z.ai") request)]
       ∧ count request = Finite 10).
Proof.
  split; [| split; [| split]].
  - destruct (search_count_is_clamped (N := answering (answer_with [])) []
                (mkWebSearchTool "k" "https://api.z.ai") "rocq"
                (options_with_count (Finite 0)) eq_refl)
      as (request & Hsearch & _ & _ & Hcount).
    exists request. split; [by rewrite Hsearch |].
    destruct (Hcount (Finite 0) eq_refl) as (Hbelow & _). by apply Hbelow.
  - destruct (search_count_is_clamped (N := answering (answer_with [])) []
                (mkWebSearchTool "k" "https://api.z.ai") "rocq"
                (options_with_count (Finite 75)) eq_refl)
      as (request & Hsearch & _ & _ & Hcount).
    exists request. split; [by rewrite Hsearch |].
    destruct (Hcount (Finite 75) eq_refl) as (_ & Habove & _). by apply Habove.
  - destruct (search_count_is_clamped (N := answering (answer_with [])) []
                (mkWebSearchTool "k" "https://api.z.ai") "rocq"
                (options_with_count (Finite 7)) eq_refl)
      as (request & Hsearch & _ & _ & Hcount).
    exists request. split; [by rewrite Hsearch |].
    destruct (Hcount (Finite 7) eq_refl) as (_ & _ & Hwithin & _).
    by apply Hwithin.
  - destruct (search_count_is_clamped (N := answering (answer_with [])) []
                (mkWebSearchTool "k" "https://api.z.ai") "rocq"
                Options.empty eq_refl)
      as (request & Hsearch & _ & Hdefault & _).
    exists request. split; [by rewrite Hsearch |]. by apply Hdefault.
Defined.

End WebSearchFacts.

(** ** Batch editor *)

Module BatchEditorFacts.

Import BatchEditor.

(** *** chunkArray *)

Lemma chunks_from_concat {T} (array : list T) (chunkSize fuel i : nat) :
  0 < chunkSize → length array ≤ i + fuel →
  concat (chunks_from fuel array chunkSize i) = drop i array.
Proof.
  intros Hsize. revert i.
  induction fuel as [| fuel IH]; intros i Hfuel; cbn [chunks_from].
  - rewrite drop_ge by lia. done.
  - destruct (Nat.ltb_spec i (length array)) as [Hlt | Hge].
    + cbn [concat]. rewrite IH by lia.
      rewrite <- (take_drop chunkSize (drop i array)) at 2.
      by rewrite drop_drop.
    + by rewrite drop_ge.
Qed.

(** The chunks cover the array, in order: the loop ends before its bound
    on the number of turns. *)
Lemma chunkArray_concat {T} (array : list T) (chunkSize : nat) :
  0 < chunkSize → concat (chunkArray array chunkSize) = array.
Proof.
  intros Hsize. unfold chunkArray.
  by rewrite chunks_from_concat by (done || lia).
Qed.

Section WithRuntime.

Context {R : Runtime}.

(** *** Invalid positions *)

Lemma applyDelete_invalid (content : string) (params : Params.t) (s e : Z) :
  Params.startLine params = Some s → Params.endLine params = Some e →
  invalid_range content s e →
  applyDelete content params = content.
Proof.
  intros Hs He Hinvalid. unfold applyDelete. rewrite Hs, He.
  destruct (_ || _)%bool eqn:Hguard; [done |].
  rewrite !orb_false_iff in Hguard.
  destruct Hguard as [[[[H1 H2] H3] H4] H5].
  unfold invalid_range in Hinvalid. lia.
Qed.

Lemma applyInsert_invalid (content : string) (params : Params.t) (line character : Z) :
  Params.position params = Some (At line character) →
  invalid_line content line →
  applyInsert content params = content.
Proof.
  intros Hpos Hinvalid. unfold applyInsert. rewrite Hpos.
  destruct (Params.content params) as [inserted |]; [| done].
  destruct (negb _); [done |].
  destruct (_ || _)%bool eqn:Hguard; [done |].
  rewrite orb_false_iff in Hguard. destruct Hguard as [H1 H2].
  unfold invalid_line in Hinvalid. lia.
Qed.

(** C10. A delete whose start or end line is negative, is at or past the
    number of lines, or whose start is past its end gives the content back
    unchanged; so does an insert at a line that is negative or at or past
    the number of lines. Both are total functions, and through
    [applyOperation] they complete normally with the unchanged content. *)
Theorem invalid_positions_are_no_ops (content : string) (params : Params.t) :
  (∀ s e, Params.startLine params = Some s → Params.endLine params = Some e →
     invalid_range content s e →
     applyDelete content params = content
     ∧ ∀ files pattern st incl excl,
         applyOperation content
           (Operation.mk "delete" files pattern st incl excl params)
         = Normal content)
  ∧ (∀ line character, Params.position params = Some (At line character) →
       invalid_line content line →
       applyInsert content params = content
       ∧ ∀ files pattern st incl excl,
           applyOperation content
             (Operation.mk "insert" files pattern st incl excl params)
           = Normal content).
Proof.
  split.
  - intros s e Hs He Hinvalid.
    pose proof (applyDelete_invalid content params s e Hs He Hinvalid) as Heq.
    split; [done |]. intros. unfold applyOperation. cbn. by rewrite Heq.
  - intros line character Hpos Hinvalid.
    pose proof (applyInsert_invalid content params line character Hpos Hinvalid)
      as Heq.
    split; [done |]. intros. unfold applyOperation. cbn. by rewrite Heq.
Qed.

(** *** The result of [batchEdit] *)










Lemma batchEdit_body_results (operation : Operation.t) (w w' : World)
  (r : ToolResult unit) :
  batchEdit_body operation w = (w', Normal r) →
  r = no_files_found ∨ r = cancelled_by_user
  ∨ ∃ results, r = formatResults results.
Proof.
  unfold batchEdit_body, IO_bind, IO_ret.
  destruct (resolveFiles operation w) as [w1 [files | e]]; [| discriminate].
  destruct (length files =? 0); [intros [= _ <-]; by left |].
  destruct (previewChanges files operation w1) as [w2 [previews | e]];
    [| discriminate].
  destruct (requestConfirmation files previews operation w2)
    as [w3 [shouldProceed | e]]; [| discriminate].
  destruct shouldProceed; cbn [negb]; [| intros [= _ <-]; right; by left].
  destruct (executeBatchOperation files operation w3) as [w4 [results | e]];
    [| discriminate].
  intros [= _ <-]. right. right. by exists results.
Qed.

(** [processFile] always fulfils, with a result for its file. *)
Lemma processFile_fulfils (f : string) (operation : Operation.t) (w : World) :
  ∃ w' result, processFile f operation w = (w', Normal result) ∧ file result = f.
Proof.
  unfold processFile, IO_try, IO_bind, IO_ret.
  destruct (readFile w f) as [content | e]; [| by eexists _, _].
  destruct (applyOperation content operation) as [newContent | e];
    [| by eexists _, _].
  destruct (String.eqb content newContent); [by eexists _, _ |].
  destruct (writeFile _ f newContent) as [w' [[] | e]]; by eexists _, _.
Qed.

Lemma settle_chunk_results (chunk : list string) (operation : Operation.t) (w : World) :
  ∃ w' results,
    settle_chunk chunk operation w = (w', Normal results) ∧ file <$> results = chunk.
Proof.
  revert w. induction chunk as [| f chunk IH]; intros w; cbn [settle_chunk].
  - by eexists _, _.
  - unfold IO_bind, IO_ret.
    destruct (processFile_fulfils f operation w) as (w1 & result & -> & Hfile).
    cbn [settled_result].
    destruct (IH w1) as (w2 & results & -> & Hfiles).
    eexists _, _. split; [reflexivity |]. by rewrite fmap_cons, Hfile, Hfiles.
Qed.

Lemma settle_chunks_results
  (chunks : list (list string)) (operation : Operation.t) (w : World) :
  ∃ w' results,
    settle_chunks chunks operation w = (w', Normal results)
    ∧ file <$> results = concat chunks.
Proof.
  revert w. induction chunks as [| chunk chunks IH]; intros w; cbn [settle_chunks].
  - by eexists _, _.
  - unfold IO_bind, IO_ret.
    destruct (settle_chunk_results chunk operation w) as (w1 & rs1 & -> & H1).
    destruct (IH w1) as (w2 & rs2 & -> & H2).
    eexists _, _. split; [reflexivity |]. by rewrite fmap_app, H1, H2.
Qed.

(** The batch yields one result for each file, in the order of the files:
    the chunks leave no file out. *)
Lemma executeBatchOperation_results
  (files : list string) (operation : Operation.t) (w : World) :
  ∃ w' results,
    executeBatchOperation files operation w = (w', Normal results)
    ∧ file <$> results = files.
Proof.
  unfold executeBatchOperation.
  destruct (settle_chunks_results (chunkArray files maxConcurrency) operation w)
    as (w' & results & Hrun & Hfiles).
  exists w', results. split; [done |].
  rewrite Hfiles. apply chunkArray_concat. unfold maxConcurrency. lia.
Qed.

(** The result of a file, whatever happens to it. *)
Lemma processFile_result (f : string) (operation : Operation.t) (w : World) :
  ∃ w' r, processFile f operation w = (w', Normal r) ∧ result_of_file f r.
Proof.
  unfold processFile, IO_try, IO_bind, IO_ret, result_of_file.
  destruct (readFile w f) as [content | e]; [| by eexists _, _].
  destruct (applyOperation content operation) as [newContent | e];
    [| by eexists _, _].
  destruct (String.eqb content newContent); [by eexists _, _ |].
  destruct (writeFile _ f newContent) as [w' [[] | e]]; by eexists _, _.
Qed.

Lemma settle_chunk_Forall2 (chunk : list string) (operation : Operation.t) (w : World) :
  ∃ w' results,
    settle_chunk chunk operation w = (w', Normal results)
    ∧ Forall2 result_of_file chunk results.
Proof.
  revert w. induction chunk as [| f chunk IH]; intros w; cbn [settle_chunk].
  - eexists _, _. split; [reflexivity | constructor].
  - unfold IO_bind, IO_ret.
    destruct (processFile_result f operation w) as (w1 & result & -> & Hresult).
    cbn [settled_result].
    destruct (IH w1) as (w2 & results & -> & Hresults).
    eexists _, _. split; [reflexivity |]. by constructor.
Qed.

Lemma settle_chunks_Forall2
  (chunks : list (list string)) (operation : Operation.t) (w : World) :
  ∃ w' results,
    settle_chunks chunks operation w = (w', Normal results)
    ∧ Forall2 result_of_file (concat chunks) results.
Proof.
  revert w. induction chunks as [| chunk chunks IH]; intros w; cbn [settle_chunks].
  - eexists _, _. split; [reflexivity | constructor].
  - unfold IO_bind, IO_ret.
    destruct (settle_chunk_Forall2 chunk operation w) as (w1 & rs1 & -> & H1).
    destruct (IH w1) as (w2 & rs2 & -> & H2).
    eexists _, _. split; [reflexivity |]. cbn [concat]. by apply Forall2_app.
Qed.

Lemma executeBatchOperation_Forall2
  (files : list string) (operation : Operation.t) (w : World) :
  ∃ w' results,
    executeBatchOperation files operation w = (w', Normal results)
    ∧ Forall2 result_of_file files results.
Proof.
  unfold executeBatchOperation.
  destruct (settle_chunks_Forall2 (chunkArray files maxConcurrency) operation w)
    as (w' & results & Hrun & Hresults).
  exists w', results. split; [done |].
  rewrite chunkArray_concat in Hresults; [done |]. unfold maxConcurrency. lia.
Qed.


End WithRuntime.

(** *** Concrete runs *)


(** With an explicit list of files the same build fails before it reads
    a file: [fs.existsSync] is no function, and [batchEdit] returns the
    failure with that message. *)
Lemma batchEdit_explicit_files_in_the_ES_module_build :
  batchEdit (R := es_module_runtime EmptyString)
    (delete_lines ["/project/notes.txt"] 0 0) fs_with_file
  = (fs_with_file,
     Normal (mkToolResult false None
               (Some "Batch edit failed: fs.existsSync is not a function") None)).
Proof. vm_compute. reflexivity. Qed.

Lemma batchEdit_deletes_first_line :
  ∃ o,
    run_batchEdit (delete_lines ["/project/notes.txt"] 0 0) fs_with_file
    = ({[ "/project/notes.txt" := MemFs.File "beta" ]},
       Normal (mkToolResult true (Some o) None None)).
Proof. eexists. vm_compute. reflexivity. Qed.

Lemma delete_and_insert_past_the_end_are_no_ops :
  applyDelete two_lines (Operation.params (delete_lines [] 5 7)) = two_lines
  ∧ applyInsert two_lines (Operation.params (insert_at [] "gamma" 2 0)) = two_lines.
Proof.
  split.
  - destruct (invalid_positions_are_no_ops (R := mem_runtime)
                two_lines (Operation.params (delete_lines [] 5 7)))
      as [Hdelete _].
    apply (Hdelete 5%Z 7%Z eq_refl eq_refl).
    unfold invalid_range. vm_compute. right. right. left. discriminate.
  - destruct (invalid_positions_are_no_ops (R := mem_runtime)
                two_lines (Operation.params (insert_at [] "gamma" 2 0)))
      as [_ Hinsert].
    apply (Hinsert 2%Z 0%Z eq_refl).
    unfold invalid_line. vm_compute. right. discriminate.
Defined.

(** An insert at a line of the content does change it. *)
Lemma insert_in_range_changes_the_line :
  applyInsert two_lines (Operation.params (insert_at [] "gamma " 1 0))
  = "alpha" +:+ nl +:+ "gamma beta".
Proof. reflexivity. Qed.

End BatchEditorFacts.

(** ** Backup manager *)

Module BackupManagerFacts.

Import BackupManager.

Section WithRuntime.

Context {R : Runtime}.

(** C9. When the checksum stored with the selected backup differs from
    the SHA-256 checksum of the content read from the backup file,
    [restoreBackup] returns false and leaves the world as it was: nothing
    is written, so the target file keeps its content. And [restoreBackup]
    returns true only when the checksums agree and the content of the
    backup has been written to the target. *)
Theorem restoreBackup_verifies_checksum
  (this : BackupManager) (filePath : string) (backupTimestamp : option Z)
  (w : World) :
  (∀ backup content,
     selected_backup this filePath backupTimestamp = Some backup →
     readFile w (backupPath backup) = Normal content →
     computeChecksum content ≠ checksum backup →
     (restoreBackup this filePath backupTimestamp w).2 = false
     ∧ (restoreBackup this filePath backupTimestamp w).1.1 = w)
  ∧ ((restoreBackup this filePath backupTimestamp w).2 = true →
     ∃ backup content,
       selected_backup this filePath backupTimestamp = Some backup
       ∧ readFile w (backupPath backup) = Normal content
       ∧ computeChecksum content = checksum backup
       ∧ writeFile w (path_resolve filePath) content
         = ((restoreBackup this filePath backupTimestamp w).1.1, Normal tt)).
Proof.
  unfold selected_backup, restoreBackup.
  destruct (select_backup this (path_resolve filePath) backupTimestamp)
    as [[this' selected] |]; cbn [fmap option_fmap option_map snd]; split.
  - intros backup content [= <-] Hread Hsum. rewrite Hread. cbv zeta.
    apply String.eqb_neq in Hsum. rewrite Hsum. by split.
  - destruct (readFile w (backupPath selected)) as [content | e] eqn:Hread;
      [| done].
    cbv zeta.
    destruct (String.eqb _ _) eqn:Hsum; cbn [negb]; [| done].
    apply String.eqb_eq in Hsum.
    destruct (writeFile w (path_resolve filePath) content)
      as [w' [[] | e]] eqn:Hwrite; [| done].
    intros _. by exists selected, content.
  - by intros backup content [=].
  - done.
Qed.

End WithRuntime.

(** *** Concrete runs *)

Lemma restore_refused_and_restore_done :
  ((restoreBackup (R := mem_runtime) manager_with_wrong_checksum "/project/notes.txt" None
      fs_with_backup).2 = false
   ∧ (restoreBackup (R := mem_runtime) manager_with_wrong_checksum "/project/notes.txt" None
        fs_with_backup).1.1
     = fs_with_backup)
  ∧ ∃ backup content,
      selected_backup (R := mem_runtime) manager_with_right_checksum
        "/project/notes.txt" None = Some backup
      ∧ MemFs.readFile fs_with_backup (backupPath backup) = Normal content
      ∧ digest_for_run content = checksum backup
      ∧ MemFs.writeFile fs_with_backup "/project/notes.txt" content
        = ((restoreBackup (R := mem_runtime) manager_with_right_checksum
              "/project/notes.txt" None fs_with_backup).1.1,
           Normal tt).
Proof.
  split.
  - destruct (restoreBackup_verifies_checksum (R := mem_runtime)
                manager_with_wrong_checksum "/project/notes.txt" None
                fs_with_backup) as [Hrefused _].
    apply (Hrefused backup_with_wrong_checksum "backup content").
    + reflexivity.
    + reflexivity.
    + discriminate.
  - destruct (restoreBackup_verifies_checksum (R := mem_runtime)
                manager_with_right_checksum "/project/notes.txt" None
                fs_with_backup) as [_ Hdone].
    apply Hdone. reflexivity.
Defined.

(** The restore of the intact backup writes its content to the target. *)
Lemma restore_with_right_checksum :
  (restoreBackup (R := mem_runtime) manager_with_right_checksum "/project/notes.txt"
     None fs_with_backup).2 = true
  ∧ (restoreBackup (R := mem_runtime) manager_with_right_checksum "/project/notes.txt"
       None fs_with_backup).1.1 !! "/project/notes.txt"
    = Some (MemFs.File "backup content").
Proof. split; reflexivity. Qed.

End BackupManagerFacts.

(** ** The contract of a tool *)

Module ToolContract.

Section WithRuntime.

Context {N : WebSearch.Network} {R : BatchEditor.Runtime}.


End WithRuntime.


End ToolContract.

(** ** Transports: construction, kinds and life cycle *)

Module TransportKindsFacts.

Import Transports TransportKinds.

Section WithExternals.

Context {E : Externals}.

Lemma createTransport_Normal_inv (config : TransportConfig) (t : MCPTransport) :
  createTransport config = Normal t →
  constructible config ∧ type config = Some (getType t).
Proof.
  unfold createTransport, constructible.
  repeat case_decide; [.. | discriminate];
    match goal with
    | H : type config = Some ?k |- _ => rewrite H
    end.
  - unfold StdioTransport_new.
    destruct (truthy (command config)) eqn:Hfield; [| discriminate].
    intros [= <-]. split; [| done].
    exists "stdio". split; [done |]. split; [| done].
    unfold recognized_kinds. set_solver.
  - unfold HttpTransport_new.
    destruct (truthy (url config)) eqn:Hfield; [| discriminate].
    intros [= <-]. split; [| done].
    exists "http". split; [done |]. split; [| done].
    unfold recognized_kinds. set_solver.
  - unfold SSETransport_new.
    destruct (truthy (url config)) eqn:Hfield; [| discriminate].
    intros [= <-]. split; [| done].
    exists "sse". split; [done |]. split; [| done].
    unfold recognized_kinds. set_solver.
  - unfold StreamableHttpTransport_new.
    destruct (truthy (url config)) eqn:Hfield; [| discriminate].
    intros [= <-]. split; [| done].
    exists "streamable_http". split; [done |]. split; [| done].
    unfold recognized_kinds. set_solver.
Qed.

Lemma createTransport_constructible (config : TransportConfig) :
  constructible config → ∃ t, createTransport config = Normal t.
Proof.
  intros (kind & Hkind & Hin & Hfield). unfold createTransport.
  unfold recognized_kinds in Hin.
  repeat (apply elem_of_cons in Hin as [-> | Hin]);
    [.. | by apply elem_of_nil in Hin];
    cbn in Hfield; rewrite Hkind;
    repeat (rewrite decide_False by discriminate);
    rewrite decide_True by done.
  - unfold StdioTransport_new. rewrite Hfield. by eexists.
  - unfold HttpTransport_new. rewrite Hfield. by eexists.
  - unfold SSETransport_new. rewrite Hfield. by eexists.
  - unfold StreamableHttpTransport_new. rewrite Hfield. by eexists.
Qed.

(** [createTransport] succeeds exactly on the constructible
    configurations, and the transport it returns reports the configured
    kind through [getType]. *)
Theorem createTransport_succeeds_iff_constructible (config : TransportConfig) :
  (constructible config ↔ ∃ t, createTransport config = Normal t)
  ∧ ∀ t, createTransport config = Normal t → type config = Some (getType t).
Proof.
  split; [split |].
  - apply createTransport_constructible.
  - intros [t Ht]. by apply createTransport_Normal_inv in Ht as [Hc _].
  - intros t Ht. by apply createTransport_Normal_inv in Ht as [_ Hk].
Qed.

(** The HTTP client that [connect] builds is based at the configured URL
    and sends the caller's headers; Content-Type is application/json unless
    the caller sets it. *)
Theorem http_client_headers (w : World) (this : HttpTransport) :
  ∃ client,
    (HttpTransport_connect w this).2 = Normal (mkHttpClientTransport client)
    ∧ http_client (HttpTransport_connect w this).1.2 = Some client
    ∧ baseURL client = url (http_config this)
    ∧ ∀ k, axios_headers client !! k = expected_header (http_config this) k.
Proof.
  unfold HttpTransport_connect. destruct (axios_get _ _ _) as [w' health].
  eexists. split; [reflexivity |]. split; [reflexivity |]. split; [reflexivity |].
  intros k. cbn [axios_headers]. unfold spread, expected_header.
  rewrite lookup_union.
  destruct (default ∅ (headers (http_config this)) !! k) as [v |] eqn:Hcaller.
  - by destruct ({[ "Content-Type" := "application/json" ]} !! k).
  - rewrite left_id by apply _.
    destruct (String.eqb_spec k "Content-Type") as [-> | Hne].
    + by rewrite lookup_singleton_eq.
    + by rewrite lookup_singleton_ne.
Qed.

End WithExternals.

(** *** Concrete runs *)

Lemma createTransport_node_server :
  ∃ t, createTransport (E := offline) (config_stdio "node" ["server.js"]) = Normal t.
Proof.
  apply (createTransport_succeeds_iff_constructible (E := offline)
           (config_stdio "node" ["server.js"])).
  exists "stdio". split; [reflexivity |]. split; [| reflexivity].
  unfold recognized_kinds. apply list_elem_of_here.
Defined.

End TransportKindsFacts.

(** ** MCP configuration: the built-in servers *)

Module McpBuiltinsFacts.

Import Transports McpConfig McpConfigFacts.

Section WithExternals.

Context {E : Externals}.

(** Every built-in server is an SSE server of api.z.ai whose URL carries
    the non-empty ZAI_API_KEY as its Authorization parameter, and
    [createTransport] accepts its transport configuration. *)
Theorem builtin_servers_are_sse_transports
  (process_env : gmap string string) (s : MCPServerConfig) :
  s ∈ getZaiBuiltInServers process_env →
  ∃ key path,
    process_env !! "ZAI_API_KEY" = Some key ∧ key ≠ EmptyString
    ∧ (name s, path) ∈ [("zai-zread", "zread"); ("zai-web-search", "web_search")]
    ∧ url (transport s)
      = Some ("https://api.z.ai/api/mcp/" +:+ path +:+ "/sse?Authorization=" +:+ key)
    ∧ ∃ t, createTransport (transport s) = Normal (OfSSE t)
           ∧ sse_config t = transport s.
Proof.
  unfold getZaiBuiltInServers, truthy.
  destruct (process_env !! "ZAI_API_KEY") as [key |]; cbn [negb];
    [| by intros Hin; apply elem_of_nil in Hin].
  destruct (String.eqb_spec key EmptyString) as [-> | Hkey]; cbn [negb];
    [by intros Hin; apply elem_of_nil in Hin |].
  intros Hin.
  apply elem_of_cons in Hin as [-> | Hin];
    [| apply list_elem_of_singleton in Hin as ->].
  - exists key, "zread". split; [done |]. split; [done |].
    split; [apply list_elem_of_here |]. split; [done |].
    unfold createTransport, sse_server. cbn [transport type].
    rewrite decide_False by discriminate. rewrite decide_False by discriminate.
    rewrite decide_True by done.
    unfold SSETransport_new. cbn [url template default truthy].
    by eexists.
  - exists key, "web_search". split; [done |]. split; [done |].
    split; [apply list_elem_of_further, list_elem_of_here |]. split; [done |].
    unfold createTransport, sse_server. cbn [transport type].
    rewrite decide_False by discriminate. rewrite decide_False by discriminate.
    rewrite decide_True by done.
    unfold SSETransport_new. cbn [url template default truthy].
    by eexists.
Qed.

End WithExternals.

(** [isZaiMCPAvailable] tells what [loadMCPConfig] returns: when it is
    true both built-in names are among the server names of the result,
    whatever the user configured; when it is false the result is the user's
    servers and nothing else. *)
Theorem isZaiMCPAvailable_decides_builtin_names
  (projectSettings : ProjectSettings) (process_env : gmap string string) :
  (isZaiMCPAvailable process_env = true →
   ∀ n, n ∈ getZaiBuiltInServerNames →
        n ∈ name <$> servers (loadMCPConfig projectSettings process_env))
  ∧ (isZaiMCPAvailable process_env = false →
     servers (loadMCPConfig projectSettings process_env)
     = userServers projectSettings).
Proof.
  rewrite loadMCPConfig_servers. split.
  - intros Havailable n Hn. rewrite fmap_app, elem_of_app.
    destruct (decide (n ∈ name <$> userServers projectSettings)) as [Hin | Hnotin];
      [by left | right].
    assert (Hbuiltin : n ∈ name <$> getZaiBuiltInServers process_env).
    { rewrite builtin_names. by rewrite Havailable. }
    apply list_elem_of_fmap in Hbuiltin as (s & -> & Hs).
    apply list_elem_of_fmap. exists s. split; [done |].
    by apply list_elem_of_filter.
  - intros Hunavailable.
    assert (Hnone : getZaiBuiltInServers process_env = []).
    { apply fmap_nil_inv with (f := name). rewrite builtin_names.
      by rewrite Hunavailable. }
    rewrite Hnone. by rewrite filter_nil, app_nil_r.
Qed.

(** *** Concrete runs *)

Lemma builtin_web_search_server :
  ∃ key path,
    ({[ "ZAI_API_KEY" := "k" ]} : gmap string string) !! "ZAI_API_KEY" = Some key
    ∧ key ≠ EmptyString
    ∧ ("zai-web-search", path)
      ∈ [("zai-zread", "zread"); ("zai-web-search", "web_search")]
    ∧ Some "https://api.z.ai/api/mcp/web_search/sse?Authorization=k"
      = Some ("https://api.z.ai/api/mcp/" +:+ path +:+ "/sse?Authorization=" +:+ key)
    ∧ ∃ t, createTransport (E := offline)
             (transport (sse_server "zai-web-search"
                "https://api.z.ai/api/mcp/web_search/sse?Authorization=k"))
           = Normal (OfSSE t)
           ∧ sse_config t
             = transport (sse_server "zai-web-search"
                 "https://api.z.ai/api/mcp/web_search/sse?Authorization=k").
Proof.
  apply (builtin_servers_are_sse_transports (E := offline)
           {[ "ZAI_API_KEY" := "k" ]}
           (sse_server "zai-web-search"
              "https://api.z.ai/api/mcp/web_search/sse?Authorization=k")).
  apply list_elem_of_further, list_elem_of_here.
Defined.

End McpBuiltinsFacts.

(** ** Web search: what a search can return *)

Module WebSearchOutcomesFacts.

Import WebSearch WebSearchOutcomes.

Lemma formatSearchResults_from_Normal
  (results : list WebSearchResult) (index : nat) (output : string) :
  Forall (λ result, is_Some (content result)) results →
  ∃ out, formatSearchResults_from index results output = Normal out.
Proof.
  intros Hall. revert index output.
  induction Hall as [| result results [c Hc] _ IH]; intros index output.
  - by eexists.
  - cbn [formatSearchResults_from]. unfold formatSearchResult. rewrite Hc.
    cbn [mbind completion_bind]. apply IH.
Qed.

Lemma formatSearchResults_from_Throw
  (results : list WebSearchResult) (index : nat) (output : string) :
  Exists (λ result, content result = None) results →
  formatSearchResults_from index results output
  = Throw (new_TypeError "Cannot read properties of undefined (reading 'length')").
Proof.
  intros Hsome. revert index output.
  induction Hsome as [result results Hc | result results _ IH];
    intros index output; cbn [formatSearchResults_from]; unfold formatSearchResult.
  - by rewrite Hc.
  - destruct (content result); cbn [mbind completion_bind]; [apply IH | done].
Qed.

Lemma some_result_without_content (results : list WebSearchResult) :
  ¬ Forall (λ result, is_Some (content result)) results →
  Exists (λ result, content result = None) results.
Proof.
  intros Hnotall. apply not_Forall_Exists in Hnotall; [| apply _].
  eapply Exists_impl; [exact Hnotall |]. intros result Hnot. cbn in Hnot.
  destruct (content result); [| done]. by destruct Hnot.
Qed.

Lemma formatSearchResults_Normal_content
  (results : list WebSearchResult) (query out : string) :
  formatSearchResults results query = Normal out →
  Forall (λ result, is_Some (content result)) results.
Proof.
  intros Hformat.
  destruct (decide (Forall (λ result, is_Some (content result)) results))
    as [Hall | Hnotall]; [done |].
  apply some_result_without_content in Hnotall. unfold formatSearchResults in Hformat.
  by rewrite (formatSearchResults_from_Throw results _ _ Hnotall) in Hformat.
Qed.

(** [formatSearchResults] returns a string exactly when every result has
    a content, and throws a TypeError exactly when some result has none. *)
Theorem formatSearchResults_needs_content
  (results : list WebSearchResult) (query : string) :
  (Forall (λ result, is_Some (content result)) results
   ↔ ∃ out, formatSearchResults results query = Normal out)
  ∧ (Exists (λ result, content result = None) results
     ↔ ∃ e, formatSearchResults results query = Throw e ∧ name e = "TypeError").
Proof.
  unfold formatSearchResults.
  destruct (decide (Forall (λ result, is_Some (content result)) results))
    as [Hall | Hnotall].
  - destruct (formatSearchResults_from_Normal results 0
                ("Web search results for " +:+ dquote +:+ query +:+ dquote
                 +:+ ":" +:+ nl +:+ nl) Hall) as [out ->].
    cbn [mbind completion_bind]. split; split; try done.
    + by eexists.
    + intros Hsome. apply Exists_exists in Hsome as (result & Hin & Hnone).
      rewrite Forall_forall in Hall. apply Hall in Hin as [c Hc]. congruence.
    + by intros (e & [=] & _).
  - pose proof (some_result_without_content results Hnotall) as Hsome.
    rewrite (formatSearchResults_from_Throw results _ _ Hsome).
    cbn [mbind completion_bind]. split; split; try done.
    + by intros [out [=]].
    + by eexists.
Qed.

Section WithNetwork.

Context {N : Network}.

(** A tool that was given no API key, neither as an argument nor in
    ZAI_API_KEY, fails every search with the same message and without a
    request to the network. *)
Theorem search_without_key
  (apiKey baseURL : option string) (process_env : gmap string string)
  (w : World) (query : string) (options : Options.t) :
  truthy apiKey = false →
  truthy (process_env !! "ZAI_API_KEY") = false →
  search w (WebSearchTool_new apiKey baseURL process_env) query options
  = (w, Normal (mkToolResult false None (Some key_required) None)).
Proof.
  intros Harg Henv. unfold search, WebSearchTool_new. cbn [WebSearch.apiKey].
  unfold or_else, or_default. rewrite Harg, Henv. reflexivity.
Qed.

Lemma search_answer_outcome (query : string) (fetched : completion Response) :
  ∃ r,
    try_catch (search_answer query fetched)
      (λ error,
         Normal (mkToolResult false None
                   (Some ("Web search error: " +:+ message error)) None))
    = Normal r
    ∧ outcome query r.
Proof.
  unfold search_answer.
  destruct fetched as [response | e]; cbn [mbind completion_bind try_catch];
    [| eexists; split; [reflexivity |];
       eapply failed; try reflexivity; right; right; by eexists].
  destruct (ok response); cbn [negb].
  - destruct (json response) as [[data |] | e];
      cbn [mbind completion_bind try_catch];
      [| eexists; split; [reflexivity |];
         eapply failed; try reflexivity; right; right; by eexists ..].
    destruct (search_result data) as [[| result results] |] eqn:Hresults;
      cbn [try_catch];
      [eexists; split; [reflexivity |]; by apply nothing_found | |
       eexists; split; [reflexivity |]; by apply nothing_found].
    destruct (formatSearchResults (result :: results) query)
      as [formatted | e] eqn:Hformat;
      cbn [mbind completion_bind try_catch].
    + eexists. split; [reflexivity |].
      eapply found; try reflexivity; [done |]. cbn [Data.results].
      by apply (formatSearchResults_Normal_content _ query formatted).
    + eexists. split; [reflexivity |].
      eapply failed; try reflexivity. right; right. by eexists.
  - destruct (text response) as [errorText | e];
      cbn [mbind completion_bind try_catch];
      eexists; (split; [reflexivity |]);
      eapply failed; try reflexivity.
    + right; left. by eexists.
    + right; right. by eexists.
Qed.

(** [search] never throws, and its result has one of three shapes: a
    failure with an error message of one of three forms and neither output
    nor data; a success that reports that nothing was found, without data;
    or a success whose data hold a non-empty list of results, each with a
    content, and their number as count. *)
Theorem search_outcomes
  (w : World) (this : WebSearchTool) (query : string) (options : Options.t) :
  ∃ r, (search w this query options).2 = Normal r ∧ outcome query r.
Proof.
  unfold search. destruct (truthy (Some (apiKey this))); cbn [negb].
  - destruct (fetch _ _ _) as [w' fetched]. apply search_answer_outcome.
  - eexists. split; [reflexivity |].
    eapply failed; try reflexivity. by left.
Qed.

(** One result without a content makes the whole search fail: when the
    API answers with a list of results of which one has no content,
    [search] returns a failure and no result at all. *)
Theorem search_fails_on_result_without_content
  (w : World) (this : WebSearchTool) (query : string) (options : Options.t)
  (w' : World) (response : Response) (body : WebSearchResponse)
  (results : list WebSearchResult) :
  truthy (Some (apiKey this)) = true →
  fetch w (baseURL this +:+ "/api/tools/web_search")
    (search_init this (requestBody query options))
  = (w', Normal response) →
  ok response = true →
  json response = Normal (Some body) →
  search_result body = Some results →
  Exists (λ result, content result = None) results →
  search w this query options
  = (w', Normal (mkToolResult false None
                   (Some "Web search error: Cannot read properties of undefined (reading 'length')")
                   None)).
Proof.
  intros Hkey Hfetch Hok Hjson Hresults Hsome.
  unfold search. rewrite Hkey. cbn [negb]. rewrite Hfetch. f_equal.
  unfold search_answer. cbn [mbind completion_bind]. rewrite Hok. cbn [negb].
  rewrite Hjson. cbn [mbind completion_bind]. rewrite Hresults.
  destruct results as [| result results]; [by apply Exists_nil in Hsome |].
  unfold formatSearchResults.
  rewrite (formatSearchResults_from_Throw (result :: results) _ _ Hsome).
  reflexivity.
Qed.

End WithNetwork.

(** *** Concrete runs *)

Lemma search_without_key_sends_nothing :
  search (N := answering (answer_with [titled "Rocq" (Some "A proof assistant.")]))
    [] (WebSearchTool_new None None {[ "ZAI_API_KEY" := EmptyString ]}) "rocq" Options.empty
  = ([], Normal (mkToolResult false None (Some key_required) None)).
Proof.
  apply (search_without_key
           (N := answering (answer_with [titled "Rocq" (Some "A proof assistant.")]))
           None None {[ "ZAI_API_KEY" := EmptyString ]} [] "rocq" Options.empty);
    reflexivity.
Defined.

Lemma search_with_one_result_without_content :
  (search (N := answering (answer_with [titled "Rocq" (Some "A proof assistant.");
                                         titled "Untitled" None]))
     [] (mkWebSearchTool "k" "https://api.z.ai") "rocq" Options.empty).2
  = Normal (mkToolResult false None
              (Some "Web search error: Cannot read properties of undefined (reading 'length')")
              None).
Proof.
  erewrite (search_fails_on_result_without_content
              (N := answering (answer_with [titled "Rocq" (Some "A proof assistant.");
                                            titled "Untitled" None]))
              [] (mkWebSearchTool "k" "https://api.z.ai") "rocq" Options.empty);
    [reflexivity | reflexivity | reflexivity | reflexivity | reflexivity
    | reflexivity |].
  apply Exists_cons_tl, Exists_cons_hd. reflexivity.
Defined.

End WebSearchOutcomesFacts.

(** ** Lines of a text *)

Module LinesFacts.

Import Lines JsFacts.

Lemma split_pieces_free (sep : ascii) (s : string) :
  Forall (λ piece, includes sep piece = false) (split sep s).
Proof.
  induction s as [| c rest IH]; cbn [split].
  - by repeat constructor.
  - destruct (Ascii.eqb c sep) eqn:Hc; [by constructor |].
    pose proof (split_not_nil sep rest) as Hne.
    destruct (split sep rest) as [| piece pieces]; [done |].
    apply Forall_cons in IH as [Hpiece Hpieces].
    constructor; [| done]. cbn [includes]. by rewrite Hc.
Qed.

Lemma split_free (sep : ascii) (s : string) :
  includes sep s = false → split sep s = [s].
Proof.
  induction s as [| c rest IH]; cbn [includes split]; [done |].
  intros [Hc Hrest]%orb_false_iff. rewrite Hc. by rewrite IH.
Qed.

Lemma append_nil_l (s : string) : EmptyString +:+ s = s.
Proof. reflexivity. Qed.

Lemma append_cons (c : ascii) (a b : string) :
  String c a +:+ b = String c (a +:+ b).
Proof. reflexivity. Qed.

Lemma split_app_sep (sep : ascii) (a b : string) :
  split sep (a +:+ String sep b) = split sep a ++ split sep b.
Proof.
  induction a as [| c a IH]; rewrite ?append_nil_l, ?append_cons; cbn [split].
  - by rewrite (Ascii.eqb_refl sep).
  - destruct (Ascii.eqb c sep); [by rewrite IH |].
    rewrite IH. pose proof (split_not_nil sep a) as Hne.
    by destruct (split sep a).
Qed.

(** Splitting what was joined gives the pieces back, when there is a
    piece and no piece holds the separator. *)
Lemma split_join (sep : ascii) (pieces : list string) :
  pieces ≠ [] →
  Forall (λ piece, includes sep piece = false) pieces →
  split sep (join (String sep EmptyString) pieces) = pieces.
Proof.
  intros Hne Hfree. unfold join.
  induction Hfree as [| piece pieces Hpiece Hpieces IH]; [done |].
  destruct pieces as [| piece' pieces].
  - cbn. by apply split_free.
  - rewrite concat_cons by done. rewrite append_cons, append_nil_l.
    rewrite split_app_sep, IH by done. by rewrite split_free.
Qed.

Lemma lines_of_join (lines : list string) :
  lines ≠ [] → Forall single_line lines →
  BatchEditor.lines_of (join nl lines) = lines.
Proof. apply split_join. Qed.

Lemma lines_of_single_lines (content : string) :
  Forall single_line (BatchEditor.lines_of content).
Proof. apply split_pieces_free. Qed.

Lemma substring_all (s : string) : String.substring 0 (String.length s) s = s.
Proof. induction s as [| c s IH]; cbn; [done | by rewrite IH]. Qed.

Lemma substring_split (s : string) (n : nat) :
  String.substring 0 n s +:+ String.substring n (String.length s - n) s = s.
Proof.
  revert n. induction s as [| c s IH]; intros [| n]; try done.
  - change (String.substring 0 (String.length (String c s)) (String c s)
            = String c s).
    apply substring_all.
  - change (String c (String.substring 0 n s
                      +:+ String.substring n (String.length s - n) s)
            = String c s).
    by rewrite IH.
Qed.

(** [s.slice(0, c) + s.slice(c)] is [s], for every integer [c]. *)
Lemma slice_slice_from (s : string) (c : Z) :
  slice s 0 c +:+ slice_from s c = s.
Proof.
  unfold slice, slice_from.
  assert (H0 : relative_index 0 (String.length s) = 0).
  { unfold relative_index. cbn. lia. }
  rewrite H0, Nat.sub_0_r. apply substring_split.
Qed.

Lemma includes_app (c : ascii) (a b : string) :
  includes c (a +:+ b) = includes c a || includes c b.
Proof.
  induction a as [| x a IH]; [done |].
  rewrite append_cons. cbn [includes]. by rewrite IH, orb_assoc.
Qed.

Lemma includes_substring (c : ascii) (s : string) (i n : nat) :
  includes c s = false → includes c (String.substring i n s) = false.
Proof.
  revert i n. induction s as [| x s IH]; intros i n; [by destruct i, n |].
  cbn [includes]. intros [Hx Hs]%orb_false_iff.
  destruct i as [| i]; [destruct n as [| n] |]; cbn [String.substring includes];
    [done | | by apply IH].
  by rewrite Hx, IH.
Qed.

End LinesFacts.

(** ** Batch editor: the pure part *)

Module BatchEditorTextFacts.

Import Lines LinesFacts JsFacts BatchEditor BatchEditorRuns.

(** *** Chunks *)

Lemma chunks_from_sizes {T} (array : list T) (chunkSize fuel i : nat) :
  0 < chunkSize →
  Forall (λ chunk, 0 < length chunk ≤ chunkSize)
    (chunks_from fuel array chunkSize i).
Proof.
  intros Hsize. revert i.
  induction fuel as [| fuel IH]; intros i; cbn [chunks_from]; [constructor |].
  destruct (Nat.ltb_spec i (length array)) as [Hlt | Hge]; [| constructor].
  constructor; [| apply IH].
  rewrite length_take, length_drop. lia.
Qed.

Lemma chunks_from_full {T} (array : list T) (chunkSize fuel i k : nat)
  (chunk : list T) :
  chunks_from fuel array chunkSize i !! k = Some chunk →
  S k < length (chunks_from fuel array chunkSize i) →
  length chunk = chunkSize.
Proof.
  revert i k. induction fuel as [| fuel IH]; intros i k; cbn [chunks_from];
    [done |].
  destruct (Nat.ltb_spec i (length array)) as [Hlt | Hge]; [| done].
  destruct k as [| k]; cbn [lookup list_lookup length].
  - intros [= <-] Hmore.
    destruct fuel as [| fuel]; cbn [chunks_from length] in Hmore; [lia |].
    destruct (Nat.ltb_spec (i + chunkSize) (length array)) as [Hnext | Hlast];
      cbn [length] in Hmore; [| lia].
    rewrite length_take, length_drop. lia.
  - intros Hchunk Hmore. apply (IH (i + chunkSize) k); [done | lia].
Qed.

(** For a positive chunk size, the chunks of [chunkArray] are the array
    cut into consecutive pieces: concatenated they give the array back, no
    chunk is empty or longer than the chunk size, and every chunk but the
    last has exactly the chunk size. *)
Theorem chunkArray_partitions {T} (array : list T) (chunkSize : nat) :
  0 < chunkSize →
  concat (chunkArray array chunkSize) = array
  ∧ Forall (λ chunk, 0 < length chunk ≤ chunkSize) (chunkArray array chunkSize)
  ∧ ∀ k chunk,
      chunkArray array chunkSize !! k = Some chunk →
      S k < length (chunkArray array chunkSize) →
      length chunk = chunkSize.
Proof.
  intros Hsize. split; [| split].
  - unfold chunkArray. rewrite BatchEditorFacts.chunks_from_concat by (done || lia).
    done.
  - by apply chunks_from_sizes.
  - intros k chunk. apply chunks_from_full.
Qed.

(** *** The files of a search *)

Section WithRuntime.

Context {R : Runtime}.

Lemma Set_add_NoDup (files : list string) (x : string) :
  NoDup files → NoDup (Set_add files x).
Proof.
  intros Hfiles. unfold Set_add. case_bool_decide as Hin; [done |].
  apply NoDup_app. split; [done |]. split; [| apply NoDup_singleton].
  intros y Hy Hx. apply list_elem_of_singleton in Hx as ->. done.
Qed.

Lemma Set_add_length (files : list string) (x : string) :
  length (Set_add files x) ≤ S (length files).
Proof.
  unfold Set_add. case_bool_decide; [lia |]. rewrite length_app. cbn. lia.
Qed.

Lemma parseSearchResults_line_NoDup (files : list string) (line : string) :
  NoDup files → NoDup (parseSearchResults_line files line).
Proof.
  intros Hfiles. unfold parseSearchResults_line.
  destruct (_ || _ || _)%bool; [done |].
  destruct (String_match_1 _ _); [by apply Set_add_NoDup |].
  destruct (String_match_1 _ _); [by apply Set_add_NoDup | done].
Qed.

Lemma parseSearchResults_line_length (files : list string) (line : string) :
  length (parseSearchResults_line files line) ≤ S (length files).
Proof.
  unfold parseSearchResults_line.
  destruct (_ || _ || _)%bool; [lia |].
  destruct (String_match_1 _ _); [by apply Set_add_length |].
  destruct (String_match_1 _ _); [by apply Set_add_length | lia].
Qed.

(** Whatever the regular-expression engine matches, [parseSearchResults]
    lists no file twice and no more files than the output has lines. *)
Theorem parseSearchResults_no_duplicates (output : string) :
  NoDup (parseSearchResults output)
  ∧ length (parseSearchResults output) ≤ length (lines_of output).
Proof.
  unfold parseSearchResults.
  assert (Hfold : ∀ lines files,
            NoDup files →
            NoDup (foldl parseSearchResults_line files lines)
            ∧ length (foldl parseSearchResults_line files lines)
              ≤ length files + length lines).
  { induction lines as [| line lines IH]; intros files Hfiles; cbn [foldl length].
    - split; [done | lia].
    - destruct (IH (parseSearchResults_line files line)) as [Hnodup Hlen];
        [by apply parseSearchResults_line_NoDup |].
      split; [done |].
      pose proof (parseSearchResults_line_length files line). lia. }
  destruct (Hfold (lines_of output) []) as [Hnodup Hlen]; [constructor |].
  split; [done |]. cbn [length] in Hlen. lia.
Qed.

End WithRuntime.

(** *** Deleting lines *)

Lemma splice_valid {A} (l : list A) (s e : Z) :
  (0 ≤ s)%Z → (s ≤ e)%Z → (e < Z.of_nat (length l))%Z →
  splice l s (e - s + 1) = take (Z.to_nat s) l ++ drop (S (Z.to_nat e)) l.
Proof.
  intros Hs Hse He. unfold splice, relative_index.
  destruct (Z.ltb_spec s 0) as [Hneg | _]; [lia |].
  replace (Z.to_nat (Z.min s (Z.of_nat (length l)))) with (Z.to_nat s) by lia.
  f_equal. f_equal. lia.
Qed.

(** On a valid range, [applyDelete] removes the lines from [startLine] to
    [endLine], both included and counted from 0, and keeps every other
    line as it is; when it removes every line the text becomes empty. *)
Theorem applyDelete_removes_the_range
  (content : string) (params : Params.t) (s e : Z) :
  Params.startLine params = Some s → Params.endLine params = Some e →
  valid_range content s e →
  let kept :=
    take (Z.to_nat s) (lines_of content)
    ++ drop (S (Z.to_nat e)) (lines_of content) in
  applyDelete content params = join nl kept
  ∧ (kept ≠ [] → lines_of (applyDelete content params) = kept)
  ∧ (kept = [] → applyDelete content params = EmptyString).
Proof.
  intros Hs He (H0 & Hse & Hlen) kept.
  assert (Hdelete : applyDelete content params = join nl kept).
  { unfold applyDelete. rewrite Hs, He.
    destruct (_ || _)%bool eqn:Hguard.
    - rewrite !orb_true_iff in Hguard. lia.
    - by rewrite splice_valid. }
  split; [done |]. rewrite Hdelete. split.
  - intros Hkept. apply lines_of_join; [done |].
    apply Forall_app. split.
    + apply Forall_take, lines_of_single_lines.
    + apply Forall_drop, lines_of_single_lines.
  - by intros ->.
Qed.

(** *** Inserting text *)

Lemma lines_of_app (a b : string) :
  lines_of (a +:+ nl +:+ b) = lines_of a ++ lines_of b.
Proof. unfold lines_of, nl. rewrite append_cons, append_nil_l. apply split_app_sep. Qed.

(** Inserting a non-empty text at the start puts its lines before the
    lines of the content, and inserting it at the end puts them after. *)
Theorem applyInsert_start_and_end
  (content : string) (params : Params.t) (inserted : string) :
  Params.content params = Some inserted → inserted ≠ EmptyString →
  (Params.position params = Some AtStart →
   lines_of (applyInsert content params) = lines_of inserted ++ lines_of content)
  ∧ (Params.position params = Some AtEnd →
     lines_of (applyInsert content params) = lines_of content ++ lines_of inserted).
Proof.
  intros Hinserted Hne. unfold applyInsert. rewrite Hinserted.
  assert (Htruthy : truthy (Some inserted) = true).
  { cbn. by apply negb_true_iff, String.eqb_neq. }
  rewrite Htruthy. cbn [negb].
  split; intros ->; apply lines_of_app.
Qed.

(** Inserting a non-empty text at a valid line splits that line at the
    character offset and puts the text between the two parts; when the
    text holds no line feed, every other line of the content stays as it
    is and the number of lines does not change. *)
Theorem applyInsert_at_a_valid_line
  (content : string) (params : Params.t) (inserted : string) (line character : Z) :
  Params.content params = Some inserted → inserted ≠ EmptyString →
  Params.position params = Some (At line character) →
  valid_line content line →
  ∃ before after,
    lines_of content !! Z.to_nat line = Some (before +:+ after)
    ∧ before = slice (before +:+ after) 0 character
    ∧ applyInsert content params
      = join nl (<[ Z.to_nat line := before +:+ inserted +:+ after ]>
                   (lines_of content))
    ∧ (single_line inserted →
       lines_of (applyInsert content params)
       = <[ Z.to_nat line := before +:+ inserted +:+ after ]> (lines_of content)).
Proof.
  intros Hinserted Hne Hposition [H0 Hlen].
  destruct (lookup_lt_is_Some_2 (lines_of content) (Z.to_nat line)) as [old Hold];
    [lia |].
  exists (slice old 0 character), (slice_from old character).
  rewrite slice_slice_from.
  assert (Happly :
    applyInsert content params
    = join nl (<[ Z.to_nat line :=
                    slice old 0 character +:+ inserted +:+ slice_from old character ]>
                 (lines_of content))).
  { unfold applyInsert. rewrite Hinserted, Hposition.
    assert (Htruthy : truthy (Some inserted) = true).
    { cbn. by apply negb_true_iff, String.eqb_neq. }
    rewrite Htruthy. cbn [negb].
    destruct (_ || _)%bool eqn:Hguard.
    - rewrite orb_true_iff in Hguard. lia.
    - by rewrite Hold. }
  split; [done |]. split; [done |]. split; [done |].
  intros Hsingle. rewrite Happly. apply lines_of_join.
  - intros Hnil. apply (f_equal length) in Hnil.
    rewrite length_insert in Hnil. cbn in Hnil. lia.
  - apply Forall_insert; [apply lines_of_single_lines |].
    pose proof (lines_of_single_lines content) as Hlines.
    rewrite Forall_lookup in Hlines. specialize (Hlines _ _ Hold).
    unfold single_line in *. rewrite !includes_app, Hsingle.
    unfold slice, slice_from. by rewrite !includes_substring.
Qed.

(** *** Counting changes *)

Lemma countChanges_0 (oldContent newContent : string) :
  countChanges oldContent newContent = 0 →
  lines_of oldContent = lines_of newContent.
Proof.
  unfold countChanges. intros Hcount. apply list_eq. intros i.
  destruct (decide (i < length (lines_of oldContent) `max` length (lines_of newContent)))
    as [Hlt | Hge].
  - apply length_zero_iff_nil in Hcount.
    destruct (decide (lines_of oldContent !! i = lines_of newContent !! i))
      as [Heq | Hne]; [done |].
    assert (Hin : i ∈ filter
                        (λ i, line_differs (lines_of oldContent) (lines_of newContent) i
                              = true)
                        (seq 0 (length (lines_of oldContent)
                                `max` length (lines_of newContent)))).
    { apply list_elem_of_filter. split.
      - unfold line_differs. by apply bool_decide_eq_true.
      - apply elem_of_seq. lia. }
    rewrite Hcount in Hin. by apply elem_of_nil in Hin.
  - rewrite !lookup_ge_None_2 by lia. done.
Qed.

Lemma countChanges_0_iff (oldContent newContent : string) :
  countChanges oldContent newContent = 0 ↔ oldContent = newContent.
Proof.
  split.
  - intros Hcount. apply countChanges_0 in Hcount.
    rewrite <- (join_split oldContent), <- (join_split newContent).
    unfold lines_of in Hcount. by rewrite Hcount.
  - intros <-. unfold countChanges. apply length_zero_iff_nil.
    destruct (filter _ _) as [| i changed] eqn:Hfilter; [done |].
    assert (Hin : i ∈ i :: changed) by left.
    rewrite <- Hfilter in Hin. apply list_elem_of_filter in Hin as [Hdiffers _].
    unfold line_differs in Hdiffers. by apply bool_decide_eq_true in Hdiffers.
Qed.

(** [countChanges] is 0 exactly when the two texts are the same, and it
    never exceeds the number of lines of the longer text. *)
Theorem countChanges_zero_iff_same (oldContent newContent : string) :
  (countChanges oldContent newContent = 0 ↔ oldContent = newContent)
  ∧ countChanges oldContent newContent
    ≤ length (lines_of oldContent) `max` length (lines_of newContent).
Proof.
  split; [apply countChanges_0_iff |].
  unfold countChanges. etrans; [apply length_filter |]. by rewrite length_seq.
Qed.

(** *** The preview *)

(** The state of the loop of [generatePreview]: nothing shown and an empty
    preview, or something shown and a preview that begins with a change. *)
Lemma preview_step_invariant (oldLines newLines : list string) (maxChanges i : nat)
  (state : string * nat) :
  (state.2 = 0 ∧ state.1 = EmptyString)
  ∨ (0 < state.2 ∧ begins_with_change state.1) →
  ((preview_step oldLines newLines maxChanges state i).2 = 0
   ∧ (preview_step oldLines newLines maxChanges state i).1 = EmptyString)
  ∨ (0 < (preview_step oldLines newLines maxChanges state i).2
     ∧ begins_with_change (preview_step oldLines newLines maxChanges state i).1).
Proof.
  destruct state as [preview shown]. cbn [fst snd]. intros Hstate.
  unfold preview_step.
  destruct ((shown <? maxChanges) && line_differs oldLines newLines i) eqn:Hguard;
    [| done].
  right. cbn [fst snd]. split; [lia |].
  apply andb_true_iff in Hguard as [_ Hdiffers].
  unfold line_differs in Hdiffers. apply bool_decide_eq_true in Hdiffers.
  destruct Hstate as [[_ ->] | (_ & c & rest & -> & Hc)].
  - destruct (oldLines !! i) as [o |]; [by eexists _, _; split; [| left] |].
    destruct (newLines !! i) as [n |]; [by eexists _, _; split; [| right] |].
    done.
  - by eexists _, _.
Qed.

Lemma preview_loop_invariant (oldLines newLines : list string) (maxChanges : nat)
  (l : list nat) (state : string * nat) :
  (state.2 = 0 ∧ state.1 = EmptyString)
  ∨ (0 < state.2 ∧ begins_with_change state.1) →
  ((foldl (preview_step oldLines newLines maxChanges) state l).2 = 0
   ∧ (foldl (preview_step oldLines newLines maxChanges) state l).1 = EmptyString)
  ∨ (0 < (foldl (preview_step oldLines newLines maxChanges) state l).2
     ∧ begins_with_change
         (foldl (preview_step oldLines newLines maxChanges) state l).1).
Proof.
  revert state. induction l as [| i l IH]; intros state Hstate; cbn [foldl];
    [done |].
  by apply IH, preview_step_invariant.
Qed.

Lemma preview_loop_monotone (oldLines newLines : list string) (maxChanges : nat)
  (l : list nat) (state : string * nat) :
  state.2 ≤ (foldl (preview_step oldLines newLines maxChanges) state l).2.
Proof.
  revert state. induction l as [| i l IH]; intros [preview shown]; cbn [foldl];
    [done |].
  etrans; [| apply IH]. unfold preview_step. destruct (_ && _); cbn [snd]; lia.
Qed.

Lemma preview_loop_nothing_shown (oldLines newLines : list string)
  (maxChanges : nat) (l : list nat) (state : string * nat) :
  0 < maxChanges →
  (foldl (preview_step oldLines newLines maxChanges) state l).2 = 0 →
  ∀ i, i ∈ l → line_differs oldLines newLines i = false.
Proof.
  intros Hmax. revert state.
  induction l as [| i l IH]; intros [preview shown] Hzero j Hj; cbn [foldl] in Hzero.
  - by apply elem_of_nil in Hj.
  - pose proof (preview_loop_monotone oldLines newLines maxChanges l
                  (preview_step oldLines newLines maxChanges (preview, shown) i))
      as Hmono.
    rewrite Hzero in Hmono.
    apply elem_of_cons in Hj as [-> | Hj]; [| by eapply IH].
    unfold preview_step in Hmono.
    destruct ((shown <? maxChanges) && line_differs oldLines newLines i) eqn:Hguard;
      cbn [snd] in Hmono; [lia |].
    apply andb_false_iff in Hguard as [Hguard | Hguard]; [| done].
    apply Nat.ltb_ge in Hguard. lia.
Qed.

Lemma preview_loop_same (lines : list string) (maxChanges : nat)
  (l : list nat) (state : string * nat) :
  foldl (preview_step lines lines maxChanges) state l = state.
Proof.
  induction l as [| i l IH]; cbn [foldl]; [done |].
  destruct state as [preview shown]. unfold preview_step at 2.
  assert (Hsame : line_differs lines lines i = false).
  { unfold line_differs. by apply bool_decide_eq_false; intros ?. }
  by rewrite Hsame, andb_false_r.
Qed.

(** With room for at least one change, the preview reads that there are
    no changes exactly when the two texts are the same. *)
Theorem generatePreview_no_changes_iff_same
  (oldContent newContent : string) (maxChanges : nat) :
  0 < maxChanges →
  generatePreview oldContent newContent maxChanges = "  (no changes)" +:+ nl
  ↔ oldContent = newContent.
Proof.
  intros Hmax. split.
  - unfold generatePreview.
    pose proof (preview_loop_invariant (lines_of oldContent) (lines_of newContent)
                  maxChanges
                  (seq 0 (length (lines_of oldContent)
                          `max` length (lines_of newContent)))
                  (EmptyString, 0)) as Hfinal.
    pose proof (preview_loop_nothing_shown (lines_of oldContent)
                  (lines_of newContent) maxChanges
                  (seq 0 (length (lines_of oldContent)
                          `max` length (lines_of newContent)))
                  (EmptyString, 0) Hmax) as Hnothing.
    destruct (foldl _ _ _) as [preview shown]. cbn [fst snd] in Hfinal, Hnothing.
    destruct Hfinal as [[-> ->] | (Hshown & c & rest & -> & Hc)]; [by left | |].
    + intros _. apply countChanges_0_iff. unfold countChanges.
      apply length_zero_iff_nil.
      destruct (filter _ _) as [| i changed] eqn:Hfilter; [done |].
      assert (Hin : i ∈ i :: changed) by left.
      rewrite <- Hfilter in Hin. apply list_elem_of_filter in Hin as [Hdiffers Hi].
      rewrite (Hnothing eq_refl i Hi) in Hdiffers. done.
    + destruct (Nat.eqb_spec shown 0) as [-> | _]; [lia |].
      intros Hpreview. exfalso.
      destruct (maxChanges <? _); destruct Hc as [-> | ->]; discriminate Hpreview.
  - intros <-. unfold generatePreview. by rewrite preview_loop_same.
Qed.

(** *** Concrete runs *)

Lemma chunkArray_of_seven :
  concat (chunkArray [1; 2; 3; 4; 5; 6; 7] 3) = [1; 2; 3; 4; 5; 6; 7]
  ∧ Forall (λ chunk, 0 < length chunk ≤ 3) (chunkArray [1; 2; 3; 4; 5; 6; 7] 3)
  ∧ ∀ k chunk,
      chunkArray [1; 2; 3; 4; 5; 6; 7] 3 !! k = Some chunk →
      S k < length (chunkArray [1; 2; 3; 4; 5; 6; 7] 3) →
      length chunk = 3.
Proof. apply (chunkArray_partitions [1; 2; 3; 4; 5; 6; 7] 3). lia. Defined.

Lemma preview_of_an_unchanged_text :
  generatePreview two_lines two_lines 5 = "  (no changes)" +:+ nl
  ↔ two_lines = two_lines.
Proof. apply (generatePreview_no_changes_iff_same two_lines two_lines 5). lia. Defined.

Lemma delete_first_of_two_lines :
  applyDelete two_lines (Operation.params (delete_lines [] 0 0)) = join nl ["beta"]
  ∧ (["beta"] ≠ [] →
     lines_of (applyDelete two_lines (Operation.params (delete_lines [] 0 0)))
     = ["beta"])
  ∧ (["beta"] = [] →
     applyDelete two_lines (Operation.params (delete_lines [] 0 0)) = EmptyString).
Proof.
  apply (applyDelete_removes_the_range two_lines
           (Operation.params (delete_lines [] 0 0)) 0 0 eq_refl eq_refl).
  unfold valid_range. vm_compute. repeat split; discriminate.
Defined.

Lemma insert_at_start_of_two_lines :
  (Params.position (Operation.params (insert_start [] "zero")) = Some AtStart →
   lines_of (applyInsert two_lines (Operation.params (insert_start [] "zero")))
   = lines_of "zero" ++ lines_of two_lines)
  ∧ (Params.position (Operation.params (insert_start [] "zero")) = Some AtEnd →
     lines_of (applyInsert two_lines (Operation.params (insert_start [] "zero")))
     = lines_of two_lines ++ lines_of "zero").
Proof.
  apply (applyInsert_start_and_end two_lines
           (Operation.params (insert_start [] "zero")) "zero" eq_refl).
  discriminate.
Defined.

Lemma insert_in_the_second_of_two_lines :
  ∃ before after,
    lines_of two_lines !! Z.to_nat 1 = Some (before +:+ after)
    ∧ before = slice (before +:+ after) 0 2
    ∧ applyInsert two_lines (Operation.params (insert_at [] "gamma" 1 2))
      = join nl (<[ Z.to_nat 1 := before +:+ "gamma" +:+ after ]>
                   (lines_of two_lines))
    ∧ (single_line "gamma" →
       lines_of (applyInsert two_lines (Operation.params (insert_at [] "gamma" 1 2)))
       = <[ Z.to_nat 1 := before +:+ "gamma" +:+ after ]> (lines_of two_lines)).
Proof.
  apply (applyInsert_at_a_valid_line two_lines
           (Operation.params (insert_at [] "gamma" 1 2)) "gamma" 1 2 eq_refl);
    [discriminate | reflexivity |].
  unfold valid_line. vm_compute. split; [discriminate | reflexivity].
Defined.

End BatchEditorTextFacts.

(** ** Batch editor: the effectful part *)

Module BatchEditorRunFacts.

Import BatchEditor BatchEditorRuns BatchEditorFacts BatchEditorTextFacts.

Section WithRuntime.

Context {R : Runtime}.

(** [processFile] leaves the world as it is unless the operation changes
    the content of the file: an unchanged file is a success with 0 changes,
    a file that cannot be read or an operation that throws is a failure.
    When the content changes, the backup is made first and the new content
    is written to the world the backup leaves; if the write succeeds the
    result counts the changed lines, of which there is at least one. *)
Theorem processFile_writes_only_changes
  (f : string) (operation : Operation.t) (w : World) :
  ∃ w' r,
    processFile f operation w = (w', Normal r)
    ∧ ((w' = w
        ∧ r = mkBatchEditResult f true (Some 0) None None
        ∧ ∃ content, readFile w f = Normal content
                     ∧ applyOperation content operation = Normal content)
       ∨ (w' = w
          ∧ ∃ e, r = mkBatchEditResult f false None (Some (message e)) None
                 ∧ (readFile w f = Throw e
                    ∨ ∃ content, readFile w f = Normal content
                                 ∧ applyOperation content operation = Throw e))
       ∨ (∃ content newContent,
            readFile w f = Normal content
            ∧ applyOperation content operation = Normal newContent
            ∧ content ≠ newContent
            ∧ w' = (writeFile (BackupManager_createBackup w f) f newContent).1
            ∧ match (writeFile (BackupManager_createBackup w f) f newContent).2 with
              | Normal _ =>
                  r = mkBatchEditResult f true
                        (Some (countChanges content newContent)) None None
                  ∧ 0 < countChanges content newContent
              | Throw e => r = mkBatchEditResult f false None (Some (message e)) None
              end)).
Proof.
  unfold processFile, IO_try, IO_bind, IO_ret.
  destruct (readFile w f) as [content | e] eqn:Hread.
  - destruct (applyOperation content operation) as [newContent | e] eqn:Happly.
    + destruct (String.eqb_spec content newContent) as [<- | Hne].
      * eexists _, _. split; [reflexivity |]. left.
        split; [done |]. split; [done |]. by exists content.
      * destruct (writeFile _ f newContent) as [w' [[] | e]] eqn:Hwrite.
        -- eexists _, _. split; [reflexivity |]. right. right.
           exists content, newContent. rewrite Hwrite.
           split; [done |]. split; [done |]. split; [done |]. split; [done |].
           split; [done |].
           destruct (countChanges content newContent) eqn:Hcount; [| lia].
           by apply countChanges_0_iff in Hcount.
        -- eexists _, _. split; [reflexivity |]. right. right.
           exists content, newContent. by rewrite Hwrite.
    + eexists _, _. split; [reflexivity |]. right. left.
      split; [done |]. exists e. split; [done |]. right. by exists content.
  - eexists _, _. split; [reflexivity |]. right. left.
    split; [done |]. exists e. split; [done |]. by left.
Qed.

(** [executeBatchOperation] never throws and returns one result for each
    file, in the order of the files, whatever happens to the single files:
    the result of a file names that file, a success counts its changes and
    has no error, a failure has an error and no count. *)
Theorem executeBatchOperation_one_result_per_file
  (files : list string) (operation : Operation.t) (w : World) :
  ∃ w' results,
    executeBatchOperation files operation w = (w', Normal results)
    ∧ length results = length files
    ∧ file <$> results = files
    ∧ Forall2 result_of_file files results.
Proof.
  destruct (executeBatchOperation_Forall2 files operation w)
    as (w' & results & Hrun & Hresults).
  exists w', results. split; [done |]. split; [| split; [| done]].
  - symmetry. by eapply Forall2_length.
  - clear Hrun. induction Hresults as [| f r files results [Hf _] _ IH]; [done |].
    by rewrite fmap_cons, Hf, IH.
Qed.


(** When the user declines the confirmation, [batchEdit] returns the
    cancellation and stops in the world the dialog left: no file is
    processed, backed up or written. *)
Theorem batchEdit_declined_writes_nothing
  (operation : Operation.t) (w w1 w2 : World) (files : list string) :
  resolveFiles operation w = (w1, Normal files) →
  files ≠ [] →
  requestConfirmation files
    ((λ file, previewChanges_file w1 file operation) <$> take 3 files)
    operation w1
  = (w2, Normal false) →
  batchEdit operation w = (w2, Normal cancelled_by_user).
Proof.
  intros Hfiles Hsome Hdeclined.
  unfold batchEdit, IO_try, batchEdit_body, IO_bind, IO_ret.
  rewrite Hfiles.
  destruct (Nat.eqb_spec (length files) 0) as [Hnone | _];
    [by destruct files |].
  unfold previewChanges. by rewrite Hdeclined.
Qed.

(** A search pattern that the regular-expression engine refuses makes a
    regex search-replace a no-op instead of an error: the content stays as
    it is, and [processFile] reports a success with 0 changes and touches
    nothing. *)
Theorem invalid_regex_changes_nothing
  (content : string) (operation : Operation.t) (search replace : string) :
  Operation.type operation = "search-replace" →
  Params.search (Operation.params operation) = Some search →
  search ≠ EmptyString →
  Params.replace (Operation.params operation) = Some replace →
  Params.regex (Operation.params operation) = Some true →
  (∀ flags, regexp_syntax_ok search flags = false) →
  applyOperation content operation = Normal content
  ∧ ∀ f w, readFile w f = Normal content →
           processFile f operation w
           = (w, Normal (mkBatchEditResult f true (Some 0) None None)).
Proof.
  intros Htype Hsearch Hne Hreplace Hregex Hrefused.
  assert (Happly : applyOperation content operation = Normal content).
  { unfold applyOperation. rewrite Htype. cbn [String.eqb Ascii.eqb Bool.eqb].
    unfold applySearchReplace. rewrite Hsearch, Hreplace, Hregex.
    assert (Htruthy : truthy (Some search) = true).
    { cbn. by apply negb_true_iff, String.eqb_neq. }
    rewrite Htruthy. cbn [negb default].
    unfold RegExp_new. by rewrite Hrefused. }
  split; [done |]. intros f w Hread.
  unfold processFile, IO_try, IO_bind, IO_ret.
  rewrite Hread, Happly. by rewrite String.eqb_refl.
Qed.

(** The preview of a file predicts what [processFile] does in the same
    world: when the preview fails, processing fails with the same error
    and touches nothing; when processing succeeds, the preview had
    succeeded and announced the number of changes that processing
    reports. *)
Theorem preview_predicts_processFile
  (f : string) (operation : Operation.t) (w : World) :
  ∃ w' r,
    processFile f operation w = (w', Normal r)
    ∧ (success (previewChanges_file w f operation) = false →
       w' = w
       ∧ success r = false
       ∧ error r = error (previewChanges_file w f operation))
    ∧ (success r = true →
       success (previewChanges_file w f operation) = true
       ∧ changes r = changes (previewChanges_file w f operation)).
Proof.
  unfold processFile, previewChanges_file, IO_try, IO_bind, IO_ret.
  destruct (readFile w f) as [content | e]; cbn [mbind completion_bind];
    [| by eexists _, _].
  destruct (applyOperation content operation) as [newContent | e];
    cbn [mbind completion_bind]; [| by eexists _, _].
  destruct (String.eqb_spec content newContent) as [<- | Hne].
  - eexists _, _. split; [reflexivity |]. split; [done |].
    intros _. split; [done |]. cbn [changes]. f_equal. symmetry.
    by apply countChanges_0_iff.
  - destruct (writeFile _ f newContent) as [w' [[] | e]]; by eexists _, _.
Qed.

End WithRuntime.

(** *** Concrete runs *)


Lemma batchEdit_declined :
  batchEdit (R := asking_runtime false (λ _, true))
    (delete_lines ["/project/notes.txt"] 0 0) fs_with_file
  = (fs_with_file, Normal cancelled_by_user).
Proof.
  apply (batchEdit_declined_writes_nothing (R := asking_runtime false (λ _, true))
           (delete_lines ["/project/notes.txt"] 0 0)
           fs_with_file fs_with_file fs_with_file ["/project/notes.txt"]).
  - reflexivity.
  - discriminate.
  - reflexivity.
Defined.

Lemma replace_with_unbalanced_parenthesis :
  applyOperation (R := asking_runtime true (λ pattern, negb (String.eqb pattern "(")))
    two_lines (replace_regex ["/project/notes.txt"] "(" "x")
  = Normal two_lines
  ∧ ∀ f w,
      MemFs.readFile w f = Normal two_lines →
      processFile (R := asking_runtime true (λ pattern, negb (String.eqb pattern "(")))
        f (replace_regex ["/project/notes.txt"] "(" "x") w
      = (w, Normal (mkBatchEditResult f true (Some 0) None None)).
Proof.
  apply (invalid_regex_changes_nothing
           (R := asking_runtime true (λ pattern, negb (String.eqb pattern "(")))
           two_lines (replace_regex ["/project/notes.txt"] "(" "x") "(" "x");
    try reflexivity.
  discriminate.
Defined.

End BatchEditorRunFacts.

(** ** Backup manager: the history of a file *)

Module BackupHistoryFacts.

Import BackupManager BackupStore.

Lemma insert_newest_first_perm (b : BackupMetadata) (l : list BackupMetadata) :
  insert_newest_first b l ≡ₚ b :: l.
Proof.
  induction l as [| b' l IH]; cbn [insert_newest_first]; [done |].
  destruct (timestamp b <? timestamp b')%Z; [| done].
  rewrite IH. apply Permutation_swap.
Qed.

Lemma sort_newest_first_perm (l : list BackupMetadata) : sort_newest_first l ≡ₚ l.
Proof.
  unfold sort_newest_first. induction l as [| b l IH]; cbn [foldr]; [done |].
  by rewrite insert_newest_first_perm, IH.
Qed.

Lemma insert_newest_first_ordered (b : BackupMetadata) (l : list BackupMetadata) :
  newest_first l → newest_first (insert_newest_first b l).
Proof.
  unfold newest_first.
  induction l as [| b' l IH]; cbn [insert_newest_first ordered]; [done |].
  intros [Hhead Htail].
  destruct (Z.ltb_spec (timestamp b) (timestamp b')) as [Hlt | Hge];
    cbn [ordered].
  - split; [| by apply IH].
    rewrite insert_newest_first_perm. constructor; [lia | done].
  - split; [| done]. constructor; [done |].
    eapply Forall_impl; [exact Hhead |]. cbn. intros; lia.
Qed.

Lemma sort_newest_first_ordered (l : list BackupMetadata) :
  newest_first (sort_newest_first l).
Proof.
  unfold sort_newest_first. induction l as [| b l IH]; cbn [foldr]; [done |].
  by apply insert_newest_first_ordered.
Qed.

Lemma insert_oldest_first_perm (b : BackupMetadata) (l : list BackupMetadata) :
  insert_oldest_first b l ≡ₚ b :: l.
Proof.
  induction l as [| b' l IH]; cbn [insert_oldest_first]; [done |].
  destruct (timestamp b' <? timestamp b)%Z; [| done].
  rewrite IH. apply Permutation_swap.
Qed.

Lemma sort_oldest_first_perm (l : list BackupMetadata) : sort_oldest_first l ≡ₚ l.
Proof.
  unfold sort_oldest_first. induction l as [| b l IH]; cbn [foldr]; [done |].
  by rewrite insert_oldest_first_perm, IH.
Qed.

Lemma insert_oldest_first_ordered (b : BackupMetadata) (l : list BackupMetadata) :
  oldest_first l → oldest_first (insert_oldest_first b l).
Proof.
  unfold oldest_first.
  induction l as [| b' l IH]; cbn [insert_oldest_first ordered]; [done |].
  intros [Hhead Htail].
  destruct (Z.ltb_spec (timestamp b') (timestamp b)) as [Hlt | Hge];
    cbn [ordered].
  - split; [| by apply IH].
    rewrite insert_oldest_first_perm. constructor; [lia | done].
  - split; [| done]. constructor; [done |].
    eapply Forall_impl; [exact Hhead |]. cbn. intros; lia.
Qed.

Lemma sort_oldest_first_ordered (l : list BackupMetadata) :
  oldest_first (sort_oldest_first l).
Proof.
  unfold sort_oldest_first. induction l as [| b l IH]; cbn [foldr]; [done |].
  by apply insert_oldest_first_ordered.
Qed.

(** The head of a list sorted newest first is a newest backup. *)
Lemma head_sort_newest_first (l : list BackupMetadata) (b : BackupMetadata) :
  head (sort_newest_first l) = Some b →
  b ∈ l ∧ ∀ b', b' ∈ l → (timestamp b' ≤ timestamp b)%Z.
Proof.
  intros Hhead.
  pose proof (sort_newest_first_perm l) as Hperm.
  pose proof (sort_newest_first_ordered l) as Hsorted.
  destruct (sort_newest_first l) as [| b0 sorted]; [done |].
  injection Hhead as ->. destruct Hsorted as [Hfirst _]. split.
  - rewrite <- Hperm. left.
  - intros b' Hb'. rewrite <- Hperm in Hb'.
    apply elem_of_cons in Hb' as [-> | Hb']; [lia |].
    rewrite Forall_forall in Hfirst. by apply Hfirst.
Qed.

Lemma head_sort_newest_first_None (l : list BackupMetadata) :
  head (sort_newest_first l) = None ↔ l = [].
Proof.
  pose proof (sort_newest_first_perm l) as Hperm. split.
  - intros Hhead. destruct (sort_newest_first l); [| done].
    by apply Permutation_nil_l in Hperm.
  - by intros ->.
Qed.

Section WithStore.

Context {S : Store}.

(** [getBackupHistory] returns the backups the index holds for the file,
    all of them and no other, ordered from the newest to the oldest. It
    leaves the index holding that list for the file and changes no other
    entry. *)
Theorem getBackupHistory_newest_first (this : BackupManager) (filePath : string) :
  (getBackupHistory this filePath).2 ≡ₚ backups_of this filePath
  ∧ newest_first (getBackupHistory this filePath).2
  ∧ backups_of (getBackupHistory this filePath).1 filePath
    = (getBackupHistory this filePath).2
  ∧ ∀ path, path ≠ path_resolve filePath →
      backupIndex (getBackupHistory this filePath).1 !! path
      = backupIndex this !! path.
Proof.
  unfold getBackupHistory, backups_of.
  destruct (backupIndex this !! path_resolve filePath) as [backups |] eqn:Hentry;
    cbn [fst snd default with_index backupIndex].
  - split; [apply sort_newest_first_perm |].
    split; [apply sort_newest_first_ordered |].
    split; [by rewrite lookup_insert_eq |].
    intros path Hpath. by rewrite lookup_insert_ne.
  - by rewrite Hentry.
Qed.

(** [getLatestBackup] returns null exactly when the index holds no backup
    of the file. Otherwise it returns one of the backups of the file, none
    of which has a later timestamp; it is the backup that [restoreBackup]
    restores when it is given no timestamp. *)
Theorem getLatestBackup_is_the_newest (this : BackupManager) (filePath : string) :
  ((getLatestBackup this filePath).2 = None ↔ backups_of this filePath = [])
  ∧ (∀ b, (getLatestBackup this filePath).2 = Some b →
       b ∈ backups_of this filePath
       ∧ ∀ b', b' ∈ backups_of this filePath → (timestamp b' ≤ timestamp b)%Z)
  ∧ (getLatestBackup this filePath).2 = selected_backup this filePath None.
Proof.
  assert (Hlatest : (getLatestBackup this filePath).2
                    = head (sort_newest_first (backups_of this filePath))).
  { unfold getLatestBackup, getBackupHistory, backups_of.
    destruct (backupIndex this !! path_resolve filePath) as [backups |];
      cbn [snd default]; [| done].
    unfold id. by destruct (sort_newest_first backups). }
  rewrite Hlatest. split; [apply head_sort_newest_first_None |].
  split; [apply head_sort_newest_first |].
  unfold selected_backup, select_backup, backups_of.
  destruct (backupIndex this !! path_resolve filePath) as [[| b backups] |];
    cbn [default truthy_timestamp]; [done | | done].
  unfold id. by destruct (head (sort_newest_first (b :: backups))).
Qed.

(** The backup that [restoreBackup] selects. A timestamp other than 0
    selects a backup of the file that bears it, and none when no backup
    bears it; without a selected backup [restoreBackup] returns false and
    changes nothing. The timestamp 0 counts as no timestamp: it selects the
    newest backup, as a call without timestamp does. *)
Theorem restoreBackup_selects_by_timestamp
  (this : BackupManager) (filePath : string) :
  (∀ t, t ≠ 0%Z →
     (∀ b, selected_backup this filePath (Some t) = Some b →
           b ∈ backups_of this filePath ∧ timestamp b = t)
     ∧ (selected_backup this filePath (Some t) = None
        ↔ ∀ b, b ∈ backups_of this filePath → timestamp b ≠ t))
  ∧ selected_backup this filePath (Some 0%Z) = selected_backup this filePath None
  ∧ ∀ t w, selected_backup this filePath t = None →
           restoreBackup this filePath t w = (w, this, false).
Proof.
  split; [| split].
  - intros t Ht. unfold selected_backup, select_backup, backups_of.
    assert (Htruthy : truthy_timestamp (Some t) = true).
    { cbn. by apply negb_true_iff, Z.eqb_neq. }
    destruct (backupIndex this !! path_resolve filePath) as [[| b0 backups] |];
      cbn [default].
    + split; [done |]. split; [| done]. intros _ b Hb. by apply elem_of_nil in Hb.
    + rewrite Htruthy. cbn [default].
      destruct (List.find _ (b0 :: backups)) as [found |] eqn:Hfind;
        cbn [mbind option_bind fmap option_fmap option_map snd].
      * apply find_some in Hfind as [Hin Ht'].
        apply Z.eqb_eq in Ht'. apply list_elem_of_In in Hin.
        split; [by intros b [= <-] |]. split; [done |].
        intros Hnone. by destruct (Hnone found Hin).
      * split; [done |]. split; [| done]. intros _ b Hb Hbt.
        apply list_elem_of_In in Hb.
        apply (find_none _ _ Hfind) in Hb. apply Z.eqb_neq in Hb. done.
    + split; [done |]. split; [| done]. intros _ b Hb. by apply elem_of_nil in Hb.
  - reflexivity.
  - intros t w. unfold selected_backup, restoreBackup.
    by destruct (select_backup this (path_resolve filePath) t) as [[this' b] |].
Qed.

End WithStore.

End BackupHistoryFacts.

(** ** Backup manager: creating and pruning backups *)

Module BackupStoreFacts.

Import BackupManager BackupStore BackupHistoryFacts.

Lemma ordered_take_drop (before : BackupMetadata → BackupMetadata → Prop)
  (l : list BackupMetadata) (n : nat) (r k : BackupMetadata) :
  ordered before l → r ∈ take n l → k ∈ drop n l → before r k.
Proof.
  revert n. induction l as [| b l IH]; intros n Hsorted Hr Hk.
  - rewrite take_nil in Hr. by apply elem_of_nil in Hr.
  - destruct n as [| n]; [by apply elem_of_nil in Hr |].
    cbn [take drop] in Hr, Hk. destruct Hsorted as [Hfirst Hrest].
    apply elem_of_cons in Hr as [-> | Hr].
    + rewrite Forall_forall in Hfirst. apply Hfirst.
      by apply (subseteq_drop n l).
    + by apply (IH n).
Qed.

Lemma insert_oldest_first_snoc (b m : BackupMetadata) (acc : list BackupMetadata) :
  (timestamp b ≤ timestamp m)%Z →
  insert_oldest_first b (acc ++ [m]) = insert_oldest_first b acc ++ [m].
Proof.
  intros Hle. induction acc as [| b' acc IH]; cbn [insert_oldest_first app].
  - destruct (Z.ltb_spec (timestamp m) (timestamp b)); [lia | done].
  - destruct (timestamp b' <? timestamp b)%Z; [by rewrite IH | done].
Qed.

(** A backup at least as recent as all the others, added last, is last
    after sorting oldest first. *)
Lemma sort_oldest_first_snoc (old : list BackupMetadata) (m : BackupMetadata) :
  (∀ b, b ∈ old → (timestamp b ≤ timestamp m)%Z) →
  sort_oldest_first (old ++ [m]) = sort_oldest_first old ++ [m].
Proof.
  unfold sort_oldest_first. intros Hold.
  induction old as [| b old IH]; cbn [foldr app]; [done |].
  rewrite IH by (intros b' Hb'; apply Hold; by right).
  apply insert_oldest_first_snoc, Hold. left.
Qed.

(** The entry that pushing [m] and pruning to [limit] backups leaves. *)
Lemma new_backup_is_kept (old : list BackupMetadata) (m : BackupMetadata)
  (limit : nat) :
  0 < limit →
  (∀ b, b ∈ old → (timestamp b ≤ timestamp m)%Z) →
  m ∈ (if length (old ++ [m]) <=? limit then old ++ [m]
       else drop (length (old ++ [m]) - limit) (sort_oldest_first (old ++ [m]))).
Proof.
  intros Hlimit Hnewest.
  destruct (Nat.leb_spec (length (old ++ [m])) limit) as [Hle | Hgt].
  - apply elem_of_app. right. left.
  - rewrite sort_oldest_first_snoc by done.
    rewrite length_app. cbn [length].
    pose proof (Permutation_length (sort_oldest_first_perm old)) as Hlen.
    rewrite drop_app_le by lia. apply elem_of_app. right. left.
Qed.

Lemma pruned_entry_subseteq (backups : list BackupMetadata) (limit : nat)
  (b : BackupMetadata) :
  b ∈ (if length backups <=? limit then backups
       else drop (length backups - limit) (sort_oldest_first backups)) →
  b ∈ backups.
Proof.
  destruct (length backups <=? limit); [done |].
  intros Hb. apply subseteq_drop in Hb. by rewrite sort_oldest_first_perm in Hb.
Qed.

Lemma with_index_same (this : BackupManager) :
  with_index this (backupIndex this) = this.
Proof. by destruct this. Qed.

Section WithStore.

Context {S : Store}.

Lemma pruneOldBackups_cases
  (this : BackupManager) (key : string) (w : World)
  (backups : list BackupMetadata) :
  backupIndex this !! key = Some backups →
  pruneOldBackups this key w
  = if length backups <=? maxBackups this then (w, this)
    else
      (foldl remove_backup_file w
         (take (length backups - maxBackups this) (sort_oldest_first backups)),
       with_index this
         (<[ key := drop (length backups - maxBackups this)
                      (sort_oldest_first backups) ]> (backupIndex this))).
Proof.
  intros Hentry. unfold pruneOldBackups. rewrite Hentry.
  by rewrite (Permutation_length (sort_oldest_first_perm backups)).
Qed.

(** [pruneOldBackups] keeps the [maxBackups] newest backups of a path and
    deletes the backup files of the others: the entry of the path is cut to
    its newest backups, at most [maxBackups] of them, none of which is
    older than a removed one, and an entry within the limit stays as it
    is. *)
Theorem pruneOldBackups_keeps_the_newest
  (this : BackupManager) (key : string) (w : World)
  (backups : list BackupMetadata) :
  backupIndex this !! key = Some backups →
  ∃ removed kept,
    pruneOldBackups this key w
    = (foldl remove_backup_file w removed,
       with_index this (<[ key := kept ]> (backupIndex this)))
    ∧ removed ++ kept ≡ₚ backups
    ∧ length kept = length backups `min` maxBackups this
    ∧ (∀ r k, r ∈ removed → k ∈ kept → (timestamp r ≤ timestamp k)%Z)
    ∧ (length backups ≤ maxBackups this → removed = [] ∧ kept = backups).
Proof.
  intros Hentry. rewrite (pruneOldBackups_cases this key w backups Hentry).
  destruct (Nat.leb_spec (length backups) (maxBackups this)) as [Hle | Hgt].
  - exists [], backups. cbn [foldl app].
    rewrite insert_id by done. rewrite with_index_same.
    split; [done |]. split; [done |]. split; [lia |]. split; [| done].
    intros r k Hr. by apply elem_of_nil in Hr.
  - eexists _, _. split; [reflexivity |].
    pose proof (sort_oldest_first_perm backups) as Hperm.
    pose proof (Permutation_length Hperm) as Hlen.
    split; [by rewrite take_drop |].
    split; [rewrite length_drop; lia |].
    split; [| lia].
    intros r k Hr Hk.
    apply (ordered_take_drop _ _ _ r k (sort_oldest_first_ordered backups) Hr Hk).
Qed.

(** The entry of the file after a successful [createBackup]. *)
Lemma createBackup_Some
  (this this' : BackupManager) (filePath : string) (w w' : World)
  (m : BackupMetadata) :
  createBackup this filePath w = (w', this', Some m) →
  ∃ content size w1,
    existsSync w (path_resolve filePath) = true
    ∧ readFile w (path_resolve filePath) = Normal content
    ∧ stat_size w (path_resolve filePath) = Normal size
    ∧ m = mkBackupMetadata (path_resolve filePath)
            (path_join (backupDir this) (backupFilename filePath (Date_now w)))
            (Date_now w) size (computeChecksum content)
    ∧ writeFile w (backupPath m) content = (w1, Normal tt)
    ∧ this'
      = with_index this
          (<[ path_resolve filePath :=
                if length (backups_of this filePath ++ [m]) <=? maxBackups this
                then backups_of this filePath ++ [m]
                else drop (length (backups_of this filePath ++ [m]) - maxBackups this)
                       (sort_oldest_first (backups_of this filePath ++ [m])) ]>
             (backupIndex this)).
Proof.
  unfold createBackup.
  destruct (existsSync w (path_resolve filePath)) eqn:Hexists; cbn [negb];
    [| discriminate].
  destruct (readFile w (path_resolve filePath)) as [content | e] eqn:Hread;
    [| discriminate].
  destruct (stat_size w (path_resolve filePath)) as [size | e] eqn:Hstat;
    [| discriminate].
  destruct (writeFile w _ content) as [w1 [[] | e]] eqn:Hwrite; [| discriminate].
  match goal with
  | |- context [pruneOldBackups ?this1 ?key w1] =>
      rewrite (pruneOldBackups_cases this1 key w1
                 (default [] (backupIndex this !! key) ++ [_]))
        by (unfold with_index; cbn [backupIndex]; apply lookup_insert_eq)
  end.
  unfold with_index at 1 3 4. cbn [backupIndex maxBackups backupDir].
  unfold backups_of.
  destruct (_ <=? _) eqn:Hlimit; intros [= <- <- <-];
    exists content, size, w1; cbn [backupPath]; rewrite Hwrite, ?Hlimit;
    do 5 (split; [done |]); unfold with_index; cbn [backupIndex maxBackups backupDir];
    [done |].
  by rewrite insert_insert_eq.
Qed.

Lemma createBackup_None
  (this : BackupManager) (filePath : string) (w : World) :
  (createBackup this filePath w).2 = None →
  (createBackup this filePath w).1.2 = this.
Proof.
  unfold createBackup.
  destruct (existsSync w (path_resolve filePath)); cbn [negb]; [| done].
  destruct (readFile w (path_resolve filePath)) as [content | e]; [| done].
  destruct (stat_size w (path_resolve filePath)) as [size | e]; [| done].
  destruct (writeFile w _ content) as [w1 [[] | e]]; [| done].
  by destruct (pruneOldBackups _ _ w1) as [w2 this2].
Qed.

(** [createBackup] never leaves more than [maxBackups] backups of the
    file, and it changes the entry of no other path: a manager in which no
    path is over the limit stays so. A call that returns null leaves the
    manager as it was. *)
Theorem createBackup_keeps_the_limit
  (this : BackupManager) (filePath : string) (w : World) :
  ((createBackup this filePath w).2 = None →
   (createBackup this filePath w).1.2 = this)
  ∧ (∀ path, path ≠ path_resolve filePath →
       backupIndex (createBackup this filePath w).1.2 !! path
       = backupIndex this !! path)
  ∧ (is_Some (createBackup this filePath w).2 →
     length (backups_of (createBackup this filePath w).1.2 filePath)
     ≤ maxBackups this)
  ∧ maxBackups (createBackup this filePath w).1.2 = maxBackups this
  ∧ (within_limit this → within_limit (createBackup this filePath w).1.2).
Proof.
  split; [apply createBackup_None |].
  destruct (createBackup this filePath w) as [[w' this'] [m |]] eqn:Hcreate;
    cbn [fst snd].
  - apply createBackup_Some in Hcreate
      as (content & size & w1 & _ & _ & _ & _ & _ & ->).
    set (entry := if _ <=? _ then _ else _).
    assert (Hentry : length entry ≤ maxBackups this).
    { unfold entry.
      destruct (Nat.leb_spec (length (backups_of this filePath ++ [m]))
                  (maxBackups this)) as [Hle | Hgt]; [done |].
      rewrite length_drop.
      rewrite (Permutation_length (sort_oldest_first_perm _)). lia. }
    unfold backups_of at 1, with_index. cbn [backupIndex maxBackups].
    split; [by intros path Hpath; rewrite lookup_insert_ne |].
    split; [by rewrite lookup_insert_eq |].
    split; [done |].
    intros Hlimit path backups. cbn [backupIndex maxBackups].
    destruct (decide (path = path_resolve filePath)) as [-> | Hpath].
    + rewrite lookup_insert_eq. by intros [= <-].
    + rewrite lookup_insert_ne by done. apply Hlimit.
  - apply (f_equal snd) in Hcreate as Hnone. cbn [snd] in Hnone.
    apply createBackup_None in Hnone. rewrite Hcreate in Hnone.
    cbn [fst snd] in Hnone. subst this'.
    split; [done |]. split; [by intros [? [=]] |]. done.
Qed.

(** A backup that [createBackup] returns records the resolved path of
    the file, the time of the call and the checksum of the content the file
    had, and that content has been written to the backup file, in the
    backup directory. When [maxBackups] is positive and no backup of the
    file bears a later timestamp, the new backup is in the index after the
    call. *)
Theorem createBackup_records_the_file
  (this this' : BackupManager) (filePath : string) (w w' : World)
  (m : BackupMetadata) :
  createBackup this filePath w = (w', this', Some m) →
  ∃ content,
    readFile w (path_resolve filePath) = Normal content
    ∧ originalPath m = path_resolve filePath
    ∧ timestamp m = Date_now w
    ∧ checksum m = computeChecksum content
    ∧ backupPath m
      = path_join (backupDir this) (backupFilename filePath (Date_now w))
    ∧ (writeFile w (backupPath m) content).2 = Normal tt
    ∧ (0 < maxBackups this →
       (∀ b, b ∈ backups_of this filePath → (timestamp b ≤ Date_now w)%Z) →
       m ∈ backups_of this' filePath).
Proof.
  intros Hcreate.
  apply createBackup_Some in Hcreate
    as (content & size & w1 & _ & Hread & _ & Hm & Hwrite & ->).
  exists content. rewrite Hwrite. split; [done |].
  assert (Htime : timestamp m = Date_now w) by (by rewrite Hm).
  split; [by rewrite Hm |]. split; [done |]. split; [by rewrite Hm |].
  split; [by rewrite Hm |]. split; [done |].
  intros Hmax Hnewest. clear Hm Hwrite.
  unfold backups_of at 1, with_index. cbn [backupIndex].
  rewrite lookup_insert_eq. cbn [default].
  apply new_backup_is_kept; [done |].
  intros b Hb. rewrite Htime. by apply Hnewest.
Qed.

(** A backup and its restoration. When [createBackup] has returned a
    backup whose timestamp is later than those of the backups the file
    had, and [maxBackups] is positive, a later [restoreBackup] without
    timestamp selects that backup; if the backup file then still holds what
    was written to it, [restoreBackup] writes the content the file had at
    the time of the backup to the resolved path of the file, and returns
    true exactly when that write succeeds. *)
Theorem createBackup_then_restoreBackup
  (this this1 : BackupManager) (filePath : string) (w w1 w2 : World)
  (m : BackupMetadata) :
  createBackup this filePath w = (w1, this1, Some m) →
  0 < maxBackups this →
  (∀ b, b ∈ backups_of this filePath → (timestamp b < Date_now w)%Z) →
  readFile w2 (backupPath m) = readFile w (path_resolve filePath) →
  ∃ content,
    readFile w (path_resolve filePath) = Normal content
    ∧ selected_backup this1 filePath None = Some m
    ∧ (restoreBackup this1 filePath None w2).1.1
      = (writeFile w2 (path_resolve filePath) content).1
    ∧ ((restoreBackup this1 filePath None w2).2 = true
       ↔ (writeFile w2 (path_resolve filePath) content).2 = Normal tt).
Proof.
  intros Hcreate Hmax Hnewest Hkept.
  apply createBackup_Some in Hcreate
    as (content & size & w0 & _ & Hread & _ & Hm & _ & ->).
  assert (Htime : timestamp m = Date_now w) by (by rewrite Hm).
  assert (Hsum : checksum m = computeChecksum content) by (by rewrite Hm).
  exists content. split; [done |].
  set (entry := if _ <=? _ then _ else _).
  assert (Hin : m ∈ entry).
  { apply new_backup_is_kept; [done |].
    intros b Hb. rewrite Htime. apply Hnewest in Hb. lia. }
  assert (Hhead : head (sort_newest_first entry) = Some m).
  { destruct (head (sort_newest_first entry)) as [h |] eqn:Hh.
    - apply head_sort_newest_first in Hh as [Hh Hmax'].
      apply pruned_entry_subseteq in Hh.
      apply elem_of_app in Hh as [Hold | Hnew].
      + apply Hnewest in Hold. apply Hmax' in Hin. lia.
      + apply list_elem_of_singleton in Hnew. by subst h.
    - apply head_sort_newest_first_None in Hh. rewrite Hh in Hin.
      by apply elem_of_nil in Hin. }
  assert (Hselect :
    ∃ this2, select_backup
               (with_index this (<[ path_resolve filePath := entry ]> (backupIndex this)))
               (path_resolve filePath) None
             = Some (this2, m)).
  { unfold select_backup, with_index. cbn [backupIndex].
    rewrite lookup_insert_eq.
    destruct entry as [| b0 entry0] eqn:Hentry; [by apply elem_of_nil in Hin |].
    cbn [truthy_timestamp]. rewrite Hhead. by eexists. }
  destruct Hselect as [this2 Hselect].
  split; [unfold selected_backup; by rewrite Hselect |].
  unfold restoreBackup. rewrite Hselect, Hkept, Hread, Hsum.
  rewrite String.eqb_refl. cbn [negb].
  destruct (writeFile w2 (path_resolve filePath) content) as [w3 [[] | e]];
    cbn [fst snd]; split; done.
Qed.

End WithStore.

(** *** Concrete runs *)

Lemma prune_three_backups_to_two :
  ∃ removed kept,
    pruneOldBackups (S := mem_store 4)
      (manager_with 2 [backup_at 3; backup_at 1; backup_at 2])
      "/project/notes.txt" ∅
    = (foldl (remove_backup_file (S := mem_store 4)) ∅ removed,
       with_index (manager_with 2 [backup_at 3; backup_at 1; backup_at 2])
         (<[ "/project/notes.txt" := kept ]>
            (backupIndex (manager_with 2 [backup_at 3; backup_at 1; backup_at 2]))))
    ∧ removed ++ kept ≡ₚ [backup_at 3; backup_at 1; backup_at 2]
    ∧ length kept = 3 `min` 2
    ∧ (∀ r k, r ∈ removed → k ∈ kept → (timestamp r ≤ timestamp k)%Z)
    ∧ (3 ≤ 2 → removed = [] ∧ kept = [backup_at 3; backup_at 1; backup_at 2]).
Proof.
  apply (pruneOldBackups_keeps_the_newest (S := mem_store 4)
           (manager_with 2 [backup_at 3; backup_at 1; backup_at 2])
           "/project/notes.txt" ∅ [backup_at 3; backup_at 1; backup_at 2]).
  reflexivity.
Defined.

Lemma backup_of_notes_is_recorded :
  ∃ content,
    MemFs.readFile fs_with_notes "/project/notes.txt" = Normal content
    ∧ originalPath backup_of_notes = "/project/notes.txt"
    ∧ timestamp backup_of_notes = 1700000000001%Z
    ∧ checksum backup_of_notes = digest_for_run content
    ∧ backupPath backup_of_notes
      = "/home/user/.zai/backups" +:+ "/"
        +:+ backupFilename (S := mem_store 1700000000001) "/project/notes.txt"
              1700000000001
    ∧ (MemFs.writeFile fs_with_notes (backupPath backup_of_notes) content).2
      = Normal tt
    ∧ (0 < 50 →
       (∀ b, b ∈ [backup_at 1700000000000] →
             (timestamp b ≤ 1700000000001)%Z) →
       backup_of_notes
       ∈ backups_of (S := mem_store 1700000000001) backup_run.1.2
           "/project/notes.txt").
Proof.
  apply (createBackup_records_the_file (S := mem_store 1700000000001)
           (manager_with 50 [backup_at 1700000000000]) backup_run.1.2
           "/project/notes.txt" fs_with_notes backup_run.1.1 backup_of_notes).
  vm_compute. reflexivity.
Defined.

Lemma backup_edit_and_restore :
  ∃ content,
    MemFs.readFile fs_with_notes "/project/notes.txt" = Normal content
    ∧ selected_backup (R := mem_runtime) backup_run.1.2 "/project/notes.txt" None
      = Some backup_of_notes
    ∧ (restoreBackup (R := mem_runtime) backup_run.1.2 "/project/notes.txt" None
         fs_after_edit).1.1
      = (MemFs.writeFile fs_after_edit "/project/notes.txt" content).1
    ∧ ((restoreBackup (R := mem_runtime) backup_run.1.2 "/project/notes.txt" None
          fs_after_edit).2 = true
       ↔ (MemFs.writeFile fs_after_edit "/project/notes.txt" content).2
         = Normal tt).
Proof.
  apply (createBackup_then_restoreBackup (S := mem_store 1700000000001)
           (manager_with 50 [backup_at 1700000000000]) backup_run.1.2
           "/project/notes.txt" fs_with_notes backup_run.1.1 fs_after_edit
           backup_of_notes).
  - vm_compute. reflexivity.
  - cbn. lia.
  - intros b Hb. vm_compute in Hb.
    apply list_elem_of_singleton in Hb as ->. reflexivity.
  - vm_compute. reflexivity.
Defined.

(** The restoration brings the content of the time of the backup back. *)
Lemma restore_after_edit :
  (restoreBackup (R := mem_runtime) backup_run.1.2 "/project/notes.txt" None
     fs_after_edit).1.1 !! "/project/notes.txt"
  = Some (MemFs.File "current content").
Proof. vm_compute. reflexivity. Qed.

End BackupStoreFacts.

(** ** Custom instructions *)

Module CustomInstructionsFacts.

Import CustomInstructions.

Section WithRuntime.

Context {R : Runtime}.

Lemma turn_section (w : World) (workingDirectory : string)
  (instructions : list string) (file : string) :
  loadCustomInstructions_turn w workingDirectory instructions file
  = instructions ++ option_list (section_of w workingDirectory file).
Proof.
  unfold loadCustomInstructions_turn, section_of.
  destruct (existsSync w _); [| by rewrite app_nil_r].
  destruct (readFileSync w _) as [raw | e]; [| by rewrite app_nil_r].
  cbn [truthy]. destruct (String.eqb (String_trim raw) EmptyString); cbn [negb];
    [by rewrite app_nil_r | done].
Qed.

Lemma turns_sections (w : World) (workingDirectory : string)
  (files instructions : list string) :
  foldl (loadCustomInstructions_turn w workingDirectory) instructions files
  = instructions ++ omap (section_of w workingDirectory) files.
Proof.
  revert instructions. induction files as [| file files IH]; intros instructions;
    cbn [foldl omap list_omap]; [by rewrite app_nil_r |].
  rewrite IH, turn_section.
  destruct (section_of w workingDirectory file); cbn [option_list];
    by rewrite <- ?app_assoc, ?app_nil_r.
Qed.

Lemma section_of_None (w : World) (workingDirectory file : string) :
  section_of w workingDirectory file = None ↔ skipped w workingDirectory file.
Proof.
  unfold section_of, skipped.
  destruct (existsSync w _); [| by split; [left |]].
  destruct (readFileSync w _) as [raw | e].
  - destruct (String.eqb_spec (String_trim raw) EmptyString) as [Hblank | Hnot].
    + split; [| done]. intros _. right. right. by exists raw.
    + split; [done |]. intros [? | [[e ?] | (raw' & [= <-] & ?)]]; done.
  - split; [| done]. intros _. right. left. by exists e.
Qed.

(** [loadCustomInstructions] throws exactly when it is called without a
    working directory and [process.cwd] throws, and then with the error of
    [process.cwd]: a file that cannot be read does not make the call fail.
    When the directory is known the call returns, and it returns null
    exactly when each of the four instruction files is skipped: it does not
    exist, it cannot be read, or it is empty after trimming. *)
Theorem loadCustomInstructions_null_iff_all_skipped
  (w : World) (workingDirectory : option string) :
  (∀ e, loadCustomInstructions w workingDirectory = Throw e
        ↔ workingDirectory = None ∧ process_cwd w = Throw e)
  ∧ ∀ dir, directory w workingDirectory = Normal dir →
      ∃ result,
        loadCustomInstructions w workingDirectory = Normal result
        ∧ (result = None
           ↔ ∀ file, file ∈ INSTRUCTION_FILES → skipped w dir file).
Proof.
  unfold loadCustomInstructions. split.
  - intros e. unfold directory.
    destruct workingDirectory as [dir |]; cbn [mbind completion_bind].
    + split; [| by intros [[=] _]]. by destruct (_ =? _).
    + destruct (process_cwd w) as [dir | e']; cbn [mbind completion_bind].
      * split; [| by intros [_ [=]]]. by destruct (_ =? _).
      * split; [by intros [= ->] | by intros [_ [= ->]]].
  - intros dir ->. cbn [mbind completion_bind].
    rewrite turns_sections, app_nil_l.
    setoid_rewrite <- section_of_None.
    destruct (Nat.eqb_spec (length (omap (section_of w dir) INSTRUCTION_FILES)) 0)
      as [Hnone | Hsome]; eexists; (split; [reflexivity |]).
    + split; [| done]. intros _ file Hfile.
      apply length_zero_iff_nil in Hnone.
      destruct (section_of w dir file) as [s |] eqn:Hsection; [| done].
      assert (Hin : s ∈ omap (section_of w dir) INSTRUCTION_FILES).
      { apply list_elem_of_omap. by exists file. }
      rewrite Hnone in Hin. by apply elem_of_nil in Hin.
    + split; [done |]. intros Hall. destruct Hsome.
      apply length_zero_iff_nil.
      destruct (omap (section_of w dir) INSTRUCTION_FILES) as [| s sections] eqn:Homap;
        [done |].
      assert (Hin : s ∈ omap (section_of w dir) INSTRUCTION_FILES)
        by (rewrite Homap; left).
      apply list_elem_of_omap in Hin as (file & Hfile & Hsection).
      rewrite Hall in Hsection by done. done.
Qed.

(** The text [loadCustomInstructions] returns is made of the sections of
    the files that are not skipped, in the order of priority AGENTS.md,
    ZAI.md, .zai/ZAI.md, .zai/AGENTS.md, separated by one empty line; the
    section of a file is its header, a line feed and its trimmed content.
    The text is never empty. *)
Theorem loadCustomInstructions_sections_in_priority_order
  (w : World) (workingDirectory : option string) (text : string) :
  loadCustomInstructions w workingDirectory = Normal (Some text) →
  ∃ dir,
    directory w workingDirectory = Normal dir
    ∧ text = join (nl +:+ nl)
               (omap (section_of w dir)
                  ["AGENTS.md"; "ZAI.md"; ".zai/ZAI.md"; ".zai/AGENTS.md"])
    ∧ text ≠ EmptyString.
Proof.
  unfold loadCustomInstructions.
  destruct (directory w workingDirectory) as [dir | e]; cbn [mbind completion_bind];
    [| done].
  intros Hload. exists dir. split; [done |]. revert Hload.
  rewrite turns_sections, app_nil_l. fold INSTRUCTION_FILES.
  generalize INSTRUCTION_FILES. intros files.
  assert (Hsections : ∀ s, s ∈ omap (section_of w dir) files →
                           ∃ rest, s = String "<" rest).
  { intros s Hin. apply list_elem_of_omap in Hin as (file & _ & Hsection).
    unfold section_of in Hsection.
    destruct (existsSync w _); [| done].
    destruct (readFileSync w _) as [raw | e]; [| done].
    destruct (String.eqb _ _); [done |]. injection Hsection as <-.
    by eexists. }
  destruct (omap (section_of w dir) files) as [| s sections]; [done |].
  cbn [length Nat.eqb]. intros [= <-]. split; [done |].
  destruct (Hsections s) as [rest ->]; [left |].
  unfold join. by destruct sections.
Qed.

End WithRuntime.

(** *** Concrete runs *)

Lemma instructions_of_the_project :
  ∃ dir,
    directory (R := mem_runtime) project_with_instructions None = Normal dir
    ∧ "<!-- From AGENTS.md -->" +:+ nl +:+ "Be brief." +:+ nl +:+ nl
      +:+ "<!-- From ZAI.md -->" +:+ nl +:+ "Use tabs."
      = join (nl +:+ nl)
          (omap (section_of (R := mem_runtime) project_with_instructions dir)
             ["AGENTS.md"; "ZAI.md"; ".zai/ZAI.md"; ".zai/AGENTS.md"])
    ∧ "<!-- From AGENTS.md -->" +:+ nl +:+ "Be brief." +:+ nl +:+ nl
      +:+ "<!-- From ZAI.md -->" +:+ nl +:+ "Use tabs."
      ≠ EmptyString.
Proof.
  apply (loadCustomInstructions_sections_in_priority_order (R := mem_runtime)
           project_with_instructions None).
  vm_compute. reflexivity.
Defined.

End CustomInstructionsFacts.
